(** * The two-mode chat client and the run explorer of [app.js]

    A shallow embedding of the browser script in its version with the
    run explorer; [frontend/app.js] is the earlier version, with the same
    [startConversational], [startFullPromptMode] and [sendMessage] and a
    flat file list in place of the explorer.

    The page state holds the session ([mode], [fullUsed], the transcript
    in [chatEl], the input box, the send button), the explorer
    ([runsHistory], [historyIndex], [cwd], the file table, the
    breadcrumb, the three navigation buttons) and the requests that are
    in flight.  Strings hold text in UTF-8.  An [async] function is
    split where it awaits: the part that runs up to the [fetch], and the
    part that runs when the response settles, which [resolve] starts.  The script is single threaded, so
    each part runs to its end before another event is handled.

    The validation drawer is a state of its own beside the page, and
    [formatSize] a function on exact numbers.  What the breadcrumb holds
    is read back from the markup the script assigns, as the browser
    parses it.  Left out, as they touch
    no variable of the script or depend on the browser: [autoSize],
    [focus], scrolling, placeholders, the visibility of the composer,
    the markup [renderMarkdown] produces and the date of a file row. *)

From Stdlib Require Import String Ascii List ZArith Lia Bool.
From Stdlib Require Import QArith Qround DecimalString Lqa.
Import ListNotations.
Open Scope string_scope.
Open Scope Z_scope.

(** ** JavaScript values and string operations used by the script *)

Module Js.

(** [a || b] where [a] is a string: the empty string is falsy. *)
Definition or_str (a b : string) : string :=
  if (a =? "")%string then b else a.

(** [a || b] where [a] may be [undefined] or [null]. *)
Definition or_opt (a : option string) (b : string) : string :=
  match a with
  | Some x => or_str x b
  | None => b
  end.

(** [!s] on a string. *)
Definition falsy (s : string) : bool := (s =? "")%string.

(** [arr[i]]: [undefined] outside the array. *)
Definition index {A} (arr : list A) (i : Z) : option A :=
  if i <? 0 then None else nth_error arr (Z.to_nat i).

(** [arr.slice(0, e)]: a negative [e] counts from the end. *)
Definition slice0 {A} (arr : list A) (e : Z) : list A :=
  let len := Z.of_nat (length arr) in
  let k := if e <? 0 then Z.max (len + e) 0 else Z.min e len in
  firstn (Z.to_nat k) arr.

(** [s.split(sep)] for a one-character separator. *)
Fixpoint split (sep : ascii) (s : string) : list string :=
  match s with
  | EmptyString => [EmptyString]
  | String c rest =>
      if Ascii.eqb c sep then EmptyString :: split sep rest
      else match split sep rest with
           | [] => [String c EmptyString]
           | h :: t => String c h :: t
           end
  end.

(** [arr.join(sep)]. *)
Definition join (sep : string) (arr : list string) : string :=
  String.concat sep arr.

(** The white space and line terminators of one byte: tab, line feed,
    vertical tab, form feed, carriage return and space. *)
Definition ascii_space (c : ascii) : bool :=
  let n := nat_of_ascii c in
  ((n =? 9) || (n =? 10) || (n =? 11) || (n =? 12) || (n =? 13) || (n =? 32))%nat.

(** The white space and line terminators of three bytes in UTF-8:
    U+1680, U+2000 to U+200A, U+2028, U+2029, U+202F, U+205F, U+3000 and
    U+FEFF. *)
Definition wide_space (b0 b1 b2 : nat) : bool :=
  ((b0 =? 225) && (b1 =? 154) && (b2 =? 128)
   || (b0 =? 226) && (b1 =? 128) && ((128 <=? b2) && (b2 <=? 138))
   || (b0 =? 226) && (b1 =? 128) && ((b2 =? 168) || (b2 =? 169) || (b2 =? 175))
   || (b0 =? 226) && (b1 =? 129) && (b2 =? 159)
   || (b0 =? 227) && (b1 =? 128) && (b2 =? 128)
   || (b0 =? 239) && (b1 =? 187) && (b2 =? 191))%nat%bool.

(** The number of bytes of the white space or line terminator that [s]
    starts with, 0 when it starts with none.  Strings hold text in
    UTF-8; the one of two bytes is U+00A0. *)
Definition space_width (s : string) : nat :=
  match s with
  | EmptyString => 0
  | String c r =>
      if ascii_space c then 1
      else
        match r with
        | EmptyString => 0
        | String c1 r1 =>
            if ((nat_of_ascii c =? 194) && (nat_of_ascii c1 =? 160))%nat%bool
            then 2
            else
              match r1 with
              | EmptyString => 0
              | String c2 _ =>
                  if wide_space (nat_of_ascii c) (nat_of_ascii c1)
                       (nat_of_ascii c2)
                  then 3 else 0
              end
        end
  end%nat.

Fixpoint trimStart (s : string) : string :=
  match s with
  | EmptyString => EmptyString
  | String _ r =>
      match space_width s with
      | O => s
      | S O => trimStart r
      | S (S O) =>
          match r with
          | String _ r1 => trimStart r1
          | EmptyString => EmptyString
          end
      | _ =>
          match r with
          | String _ (String _ r2) => trimStart r2
          | _ => EmptyString
          end
      end
  end.

(** What is left once the white space at the end is gone: nothing when
    only white space remains, else the first byte and the rest treated
    the same way. *)
Fixpoint trimEnd (s : string) : string :=
  match s with
  | EmptyString => EmptyString
  | String c rest =>
      if falsy (trimStart s) then EmptyString else String c (trimEnd rest)
  end.

Definition trim (s : string) : string := trimEnd (trimStart s).

Definition dquote : string := String (ascii_of_nat 34) EmptyString.

(** [escapeHtml]: the five characters the script replaces. *)
Definition escape_char (c : ascii) : string :=
  let n := nat_of_ascii c in
  if (n =? 38)%nat then "&amp;"
  else if (n =? 60)%nat then "&lt;"
  else if (n =? 62)%nat then "&gt;"
  else if (n =? 34)%nat then "&quot;"
  else if (n =? 39)%nat then "&#39;"
  else String c EmptyString.

Fixpoint escapeHtml (s : string) : string :=
  match s with
  | EmptyString => EmptyString
  | String c rest => escape_char c ++ escapeHtml rest
  end.

End Js.

(** ** Data model *)

Inductive Mode := ModeNull | ModeConvo | ModeFull.

Inductive role := user | agent.

Record msg := { msg_role : role; msg_text : string }.

(** An entry of a listing, as the backend sends it.  [type] is compared
    with the string dir; [size] and [mtime] only feed the meta line. *)
Record DirEntry := {
  name : string;
  path : string;
  type : string;
  size : option Z;
  mtime : option Z
}.

(** What one row of the file table offers: a folder opens
    ([navigateTo(e.path)]), anything else downloads. *)
Inductive row_action :=
| Open (target : string)
| Download (target : string).

Record file_row := {
  row_name : string;
  row_entry : DirEntry;
  row_act : row_action
}.

(** The content of [filesEl]: rows, or a single muted line. *)
Inductive files_view :=
| FilesRows (rows : list file_row)
| FilesMuted (text : string).

(** What [renderBreadcrumb] pushes: a span with a [data-path]
    attribute and a label, or a separator. *)
Inductive crumb :=
| CrumbPath (data_path label : string)
| CrumbSep.

Inductive validation_view :=
| ValidationInitial
| ValidationReport (md : string)
| ValidationFailed.

(** The reply of the backend as the script reads it: the promise of
    [fetch] or of [res.json()] rejects, or a JSON object arrives. *)
Record payload := {
  ok : bool;
  reply : option string;
  p_cwd : option string;
  entries : option (list DirEntry);
  md : option string
}.

Inductive response :=
| Threw (err : string)
| Json (data : payload).

(** The branch of [sendMessage] that awaits. *)
Inductive chat_branch := BranchConvo | BranchFull.

(** A request that has been sent and whose continuation waits. *)
Inductive request :=
| ReqStartConvo
| ReqChat (endpoint : string) (message : string) (branch : chat_branch)
| ReqList (path : string)
| ReqValidation.

Record session := {
  mode : Mode;
  fullUsed : bool;
  chat : list msg;
  inputValue : string;
  sendDisabled : bool;
  thinking : bool
}.

Record explorer := {
  runsHistory : list string;
  historyIndex : Z;
  cwd : string;
  files : files_view;
  breadcrumb : list crumb;
  backDisabled : bool;
  fwdDisabled : bool;
  upDisabled : bool
}.

Record page := {
  sess : session;
  expl : explorer;
  inflight : list request;
  validation : validation_view
}.

(** ** Field updates *)

Definition with_sess (f : session -> session) (p : page) : page :=
  {| sess := f (sess p); expl := expl p;
     inflight := inflight p; validation := validation p |}.

Definition with_expl (f : explorer -> explorer) (p : page) : page :=
  {| sess := sess p; expl := f (expl p);
     inflight := inflight p; validation := validation p |}.

Definition set_mode (m : Mode) : page -> page :=
  with_sess (fun s =>
    {| mode := m; fullUsed := fullUsed s; chat := chat s;
       inputValue := inputValue s; sendDisabled := sendDisabled s;
       thinking := thinking s |}).

Definition set_fullUsed (b : bool) : page -> page :=
  with_sess (fun s =>
    {| mode := mode s; fullUsed := b; chat := chat s;
       inputValue := inputValue s; sendDisabled := sendDisabled s;
       thinking := thinking s |}).

Definition set_chat (c : list msg) : page -> page :=
  with_sess (fun s =>
    {| mode := mode s; fullUsed := fullUsed s; chat := c;
       inputValue := inputValue s; sendDisabled := sendDisabled s;
       thinking := thinking s |}).

Definition set_inputValue (v : string) : page -> page :=
  with_sess (fun s =>
    {| mode := mode s; fullUsed := fullUsed s; chat := chat s;
       inputValue := v; sendDisabled := sendDisabled s;
       thinking := thinking s |}).

Definition set_sendDisabled (b : bool) : page -> page :=
  with_sess (fun s =>
    {| mode := mode s; fullUsed := fullUsed s; chat := chat s;
       inputValue := inputValue s; sendDisabled := b;
       thinking := thinking s |}).

Definition set_history (h : list string) (i : Z) : page -> page :=
  with_expl (fun e =>
    {| runsHistory := h; historyIndex := i; cwd := cwd e;
       files := files e; breadcrumb := breadcrumb e;
       backDisabled := backDisabled e; fwdDisabled := fwdDisabled e;
       upDisabled := upDisabled e |}).

Definition set_cwd (c : string) : page -> page :=
  with_expl (fun e =>
    {| runsHistory := runsHistory e; historyIndex := historyIndex e; cwd := c;
       files := files e; breadcrumb := breadcrumb e;
       backDisabled := backDisabled e; fwdDisabled := fwdDisabled e;
       upDisabled := upDisabled e |}).

Definition set_files (v : files_view) : page -> page :=
  with_expl (fun e =>
    {| runsHistory := runsHistory e; historyIndex := historyIndex e;
       cwd := cwd e; files := v; breadcrumb := breadcrumb e;
       backDisabled := backDisabled e; fwdDisabled := fwdDisabled e;
       upDisabled := upDisabled e |}).

Definition set_breadcrumb (b : list crumb) : page -> page :=
  with_expl (fun e =>
    {| runsHistory := runsHistory e; historyIndex := historyIndex e;
       cwd := cwd e; files := files e; breadcrumb := b;
       backDisabled := backDisabled e; fwdDisabled := fwdDisabled e;
       upDisabled := upDisabled e |}).

Definition set_navButtons (back fwd up : bool) : page -> page :=
  with_expl (fun e =>
    {| runsHistory := runsHistory e; historyIndex := historyIndex e;
       cwd := cwd e; files := files e; breadcrumb := breadcrumb e;
       backDisabled := back; fwdDisabled := fwd; upDisabled := up |}).

Definition set_validation (v : validation_view) (p : page) : page :=
  {| sess := sess p; expl := expl p; inflight := inflight p; validation := v |}.

(** [fetch(...)]: the request leaves and its continuation waits. *)
Definition send (r : request) (p : page) : page :=
  {| sess := sess p; expl := expl p;
     inflight := inflight p ++ [r]; validation := validation p |}.

(** The [k]-th waiting request is taken out when it settles. *)
Definition take_out (k : nat) (p : page) : page :=
  {| sess := sess p; expl := expl p;
     inflight := firstn k (inflight p) ++ skipn (S k) (inflight p);
     validation := validation p |}.

(** ** Chat *)

Definition addMsg (r : role) (text : string) (p : page) : page :=
  set_chat (chat (sess p) ++ [{| msg_role := r; msg_text := text |}]) p.

Definition setThinking (on : bool) : page -> page :=
  with_sess (fun s =>
    {| mode := mode s; fullUsed := fullUsed s; chat := chat s;
       inputValue := inputValue s; sendDisabled := sendDisabled s;
       thinking := on |}).

(** ** Explorer *)

(** [runsHistory[historyIndex] || ""] *)
Definition current_path (p : page) : string :=
  Js.or_opt (Js.index (runsHistory (expl p)) (historyIndex (expl p))) "".

(** The loop of [renderBreadcrumb] over the parts, with its accumulator. *)
Fixpoint crumbs_loop (parts : list string) (acc : string) : list crumb :=
  match parts with
  | [] => []
  | p :: rest =>
      if Js.falsy p then crumbs_loop rest acc
      else
        let acc' := if Js.falsy acc then p else (acc ++ "/" ++ p)%string in
        CrumbSep :: CrumbPath acc' p :: crumbs_loop rest acc'
  end.

Definition crumbs_of (path : string) : list crumb :=
  let parts := if Js.falsy path then [] else Js.split "/" path in
  CrumbPath "" "runs" :: crumbs_loop parts "".

(** The markup pushed for one crumb, and [crumbs.join("")], which is
    assigned to [innerHTML]: path and label go in as they are, not
    escaped. *)
Definition crumb_html (c : crumb) : string :=
  match c with
  | CrumbSep => "<span class=" ++ Js.dquote ++ "sep" ++ Js.dquote ++ ">/</span>"
  | CrumbPath a p =>
      "<span data-path=" ++ Js.dquote ++ a ++ Js.dquote ++ ">" ++ p ++ "</span>"
  end.

Definition breadcrumb_html (cs : list crumb) : string :=
  Js.join "" (map crumb_html cs).

(** The values of [data-path] as the loop writes them into the
    markup, in order.  What the spans then hold is what the browser
    makes of the markup, [span_targets] below. *)
Fixpoint written_paths (cs : list crumb) : list string :=
  match cs with
  | [] => []
  | CrumbPath a _ :: rest => a :: written_paths rest
  | CrumbSep :: rest => written_paths rest
  end.

Definition renderBreadcrumb (path : string) : page -> page :=
  set_breadcrumb (crumbs_of path).

Definition render_row (e : DirEntry) : file_row :=
  if (type e =? "dir")%string then
    {| row_name := name e ++ "/"; row_entry := e; row_act := Open (path e) |}
  else
    {| row_name := name e; row_entry := e; row_act := Download (path e) |}.

Definition failed_row (err : string) : files_view :=
  FilesMuted ("Failed to load. " ++ Js.escapeHtml err).

(** [refreshFiles] up to its [fetch]. *)
Definition refreshFiles (p : page) : page :=
  send (ReqList (current_path p)) p.

(** [refreshFiles] from the response on. *)
Definition refreshFiles_settle (r : response) (p : page) : page :=
  match r with
  | Threw err => set_files (failed_row err) p
  | Json data =>
      let p0 := set_files (FilesRows []) p in
      if negb (ok data) then set_files (failed_row "Error: List failed") p0
      else
        let p1 := set_cwd (Js.or_opt (p_cwd data) "") p0 in
        let p2 := renderBreadcrumb (cwd (expl p1)) p1 in
        let es := match entries data with Some l => l | None => [] end in
        match es with
        | [] => set_files (FilesMuted "Folder is empty") p2
        | _ => set_files (FilesRows (map render_row es)) p2
        end
  end.

Definition updateNavButtons (p : page) : page :=
  let i := historyIndex (expl p) in
  let len := Z.of_nat (length (runsHistory (expl p))) in
  set_navButtons (i <=? 0) (i >=? len - 1) (Js.falsy (current_path p)) p.

Definition navigateTo (path : string) (p : page) : page :=
  let h := Js.slice0 (runsHistory (expl p)) (historyIndex (expl p) + 1) in
  let p1 := set_history (h ++ [Js.or_str path ""]) (historyIndex (expl p) + 1) p in
  updateNavButtons (refreshFiles p1).

Definition goBack (p : page) : page :=
  if historyIndex (expl p) >? 0 then
    let p1 := set_history (runsHistory (expl p)) (historyIndex (expl p) - 1) p in
    updateNavButtons (refreshFiles p1)
  else p.

Definition goForward (p : page) : page :=
  if historyIndex (expl p) <? Z.of_nat (length (runsHistory (expl p))) - 1 then
    let p1 := set_history (runsHistory (expl p)) (historyIndex (expl p) + 1) p in
    updateNavButtons (refreshFiles p1)
  else p.

(** [cur.split('/').slice(0, -1).join('/')] *)
Definition parent_of (cur : string) : string :=
  Js.join "/" (Js.slice0 (Js.split "/" cur) (-1)).

Definition goUp (p : page) : page :=
  let cur := current_path p in
  if Js.falsy cur then p
  else navigateTo (parent_of cur) p.

(** ** Validation drawer (only its fetch matters here) *)

Definition refreshValidation (p : page) : page := send ReqValidation p.

Definition refreshValidation_settle (r : response) (p : page) : page :=
  match r with
  | Threw _ => set_validation ValidationFailed p
  | Json data => set_validation (ValidationReport (Js.or_opt (md data) "")) p
  end.

(** ** Modes *)

Definition starting_notice : string := "Starting conversational agent…".
Definition start_failed : string := "Failed to start conversational mode.".
Definition start_network_error : string :=
  "Network error starting conversational mode.".
Definition full_notice : string :=
  "Full Prompt mode: send ONE prompt. After that the input will disappear.".
Definition pick_a_mode : string :=
  "Pick a mode: Conversational or Full Prompt.".
Definition no_reply : string := "(no reply)".

(** [startConversational] up to its [fetch]. *)
Definition startConversational (p : page) : page :=
  let p1 := set_fullUsed false (set_mode ModeConvo p) in
  let p2 := set_inputValue "" p1 in
  let p3 := addMsg agent starting_notice p2 in
  send ReqStartConvo (setThinking true p3).

(** [startConversational] from the response on: the [try] after the
    await, the [catch] and the [finally]. *)
Definition startConversational_settle (r : response) (p : page) : page :=
  let p1 :=
    match r with
    | Threw _ => addMsg agent start_network_error p
    | Json data =>
        if ok data then addMsg agent (Js.or_opt (reply data) no_reply) p
        else addMsg agent start_failed p
    end in
  refreshValidation (refreshFiles (setThinking false p1)).

Definition startFullPromptMode (p : page) : page :=
  let p1 := set_fullUsed false (set_mode ModeFull p) in
  addMsg agent full_notice (set_inputValue "" p1).

(** The [finally] of [sendMessage]. *)
Definition sendMessage_finally (p : page) : page :=
  refreshValidation (refreshFiles (setThinking false (set_sendDisabled false p))).

Definition is_full (m : Mode) : bool :=
  match m with ModeFull => true | _ => false end.

(** [sendMessage] up to its [fetch]; with no mode chosen nothing is
    awaited and the function runs to its end. *)
Definition sendMessage (p : page) : page :=
  let text := Js.trim (Js.or_str (inputValue (sess p)) "") in
  if Js.falsy text then p
  else if (is_full (mode (sess p)) && fullUsed (sess p))%bool then p
  else
    let p1 := addMsg user text p in
    let p2 := set_inputValue "" p1 in
    let p3 := setThinking true (set_sendDisabled true p2) in
    match mode (sess p3) with
    | ModeConvo => send (ReqChat "/api/chat_convo" text BranchConvo) p3
    | ModeFull =>
        let endpoint :=
          if fullUsed (sess p3) then "/api/chat_full" else "/api/start_full" in
        send (ReqChat endpoint text BranchFull) p3
    | ModeNull => sendMessage_finally (addMsg agent pick_a_mode p3)
    end.

(** [sendMessage] from the response on, in the branch that sent it. *)
Definition sendMessage_settle (b : chat_branch) (r : response) (p : page)
  : page :=
  let p1 :=
    match r with
    | Threw _ => addMsg agent "Network error." p
    | Json data =>
        let p' :=
          if ok data then addMsg agent (Js.or_opt (reply data) no_reply) p
          else addMsg agent "Agent error." p in
        match b with
        | BranchConvo => p'
        | BranchFull => set_fullUsed true p'
        end
    end in
  sendMessage_finally p1.

(** ** The page as a state machine *)

(** The [k]-th waiting request settles with [r]: its continuation runs. *)
Definition resolve (k : nat) (r : response) (p : page) : page :=
  match nth_error (inflight p) k with
  | None => p
  | Some req =>
      let p' := take_out k p in
      match req with
      | ReqStartConvo => startConversational_settle r p'
      | ReqChat _ _ b => sendMessage_settle b r p'
      | ReqList _ => refreshFiles_settle r p'
      | ReqValidation => refreshValidation_settle r p'
      end
  end.

(** What the listeners of the script react to.  A disabled button fires
    no click; the Enter key calls [sendMessage] whatever the button is. *)
Inductive event :=
| ClickBeginConvo
| ClickBeginFull
| TypeText (text : string)
| ClickSend
| KeyEnter
| ClickRefresh
| ClickBack
| ClickForward
| ClickUp
| ClickPath (path : string)
| Resolve (k : nat) (r : response).

Definition step (e : event) (p : page) : page :=
  match e with
  | ClickBeginConvo => startConversational p
  | ClickBeginFull => startFullPromptMode p
  | TypeText text => set_inputValue text p
  | ClickSend => if sendDisabled (sess p) then p else sendMessage p
  | KeyEnter => sendMessage p
  | ClickRefresh => refreshFiles p
  | ClickBack => if backDisabled (expl p) then p else goBack p
  | ClickForward => if fwdDisabled (expl p) then p else goForward p
  | ClickUp => if upDisabled (expl p) then p else goUp p
  | ClickPath path => navigateTo path p
  | Resolve k r => resolve k r p
  end.

Definition run (es : list event) (p : page) : page :=
  fold_left (fun q e => step e q) es p.

(** The state the declarations of the script set up; the send button
    of the page starts enabled and the transcript empty. *)
Definition loaded : page :=
  {| sess := {| mode := ModeNull; fullUsed := false; chat := [];
                inputValue := ""; sendDisabled := false; thinking := false |};
     expl := {| runsHistory := [""]; historyIndex := 0; cwd := "";
                files := FilesRows []; breadcrumb := [];
                backDisabled := false; fwdDisabled := false;
                upDisabled := false |};
     inflight := []; validation := ValidationInitial |}.

(** Boot: [refreshFiles(); updateNavButtons();] *)
Definition boot : page := updateNavButtons (refreshFiles loaded).

(** The three history operations, as calls. *)
Inductive nav_op :=
| NavigateTo (path : string)
| GoBack
| GoForward.

Definition nav (o : nav_op) : page -> page :=
  match o with
  | NavigateTo path => navigateTo path
  | GoBack => goBack
  | GoForward => goForward
  end.

Definition run_nav (os : list nav_op) (p : page) : page :=
  fold_left (fun q o => nav o q) os p.

(** [submit(text)]: the text is in the input box and [sendMessage] runs. *)
Definition submit (text : string) (p : page) : page :=
  sendMessage (set_inputValue text p).

(** The chat requests among those in flight. *)
Definition is_chat (r : request) : bool :=
  match r with ReqChat _ _ _ => true | _ => false end.

Definition chat_inflight (p : page) : list request :=
  filter is_chat (inflight p).

(** ** Vocabulary of the properties *)

(** The cursor points into the history. *)
Definition cursor_ok (p : page) : Prop :=
  0 <= historyIndex (expl p) < Z.of_nat (length (runsHistory (expl p))).

Definition nonempty (s : string) : bool := negb (Js.falsy s).

(** The segments of a path: its parts between slashes, the empty ones
    discarded. *)
Definition segments (cwd : string) : list string :=
  filter nonempty (Js.split "/" cwd).

(** What segment [i] stands for: the join of segments [0..i]. *)
Definition prefix_path (segs : list string) (i : nat) : string :=
  Js.join "/" (firstn (S i) segs).

(** A request that failed: the promise rejected, or the reply is not ok. *)
Definition failed (r : response) : bool :=
  match r with
  | Threw _ => true
  | Json data => negb (ok data)
  end.

Definition say (r : role) (text : string) : msg :=
  {| msg_role := r; msg_text := text |}.

(** The listing a reply carries, as [refreshFiles] shows it. *)
Definition listing_view (data : payload) : files_view :=
  match entries data with
  | Some (e :: es) => FilesRows (map render_row (e :: es))
  | _ => FilesMuted "Folder is empty"
  end.

(** The text [String(err)] of a failed listing. *)
Definition failure_text (r : response) : string :=
  match r with
  | Threw err => err
  | Json _ => "Error: List failed"
  end.

(** Sample replies of the listing endpoint. *)
Definition a_folder : DirEntry :=
  {| name := "a"; path := "a"; type := "dir"; size := None; mtime := None |}.

Definition a_file : DirEntry :=
  {| name := "out.csv"; path := "a/out.csv"; type := "file";
     size := Some 12; mtime := None |}.

Definition listing_reply (c : string) (es : list DirEntry) : response :=
  Json {| ok := true; reply := None; p_cwd := Some c;
          entries := Some es; md := None |}.

(** ** Vocabulary of the further properties *)

(** [f] holds of every character of [s]. *)
Fixpoint string_forallb (f : ascii -> bool) (s : string) : bool :=
  match s with
  | EmptyString => true
  | String c rest => (f c && string_forallb f rest)%bool
  end.

(** A text of ASCII white space only (the empty text included). *)
Definition blank (s : string) : bool := string_forallb Js.ascii_space s.



(** U+00A0, the no-break space, and U+3000, the ideographic space, in
    UTF-8. *)
Definition nbsp : string :=
  String (ascii_of_nat 194) (String (ascii_of_nat 160) EmptyString).

Definition wide_blank : string :=
  String (ascii_of_nat 227)
    (String (ascii_of_nat 128) (String (ascii_of_nat 128) EmptyString)).

(** ** The breadcrumb as the browser holds it

    [renderBreadcrumb] assigns markup to [innerHTML] and then takes the
    spans with [querySelectorAll] and their targets with [getAttribute],
    so targets and labels are what the HTML parser makes of the markup.
    The parser is modelled on the markup it reads in one way only: spans
    of the two shapes the script writes, a value and a text made of
    characters that are copied and of the five character references that
    [escapeHtml] writes.  Outside of that the result is [None]. *)

(** A character the parser copies, in a quoted attribute value and in
    text alike: no control character, quote, ampersand or opening angle
    bracket. *)
Definition copied_char (c : ascii) : bool :=
  let n := nat_of_ascii c in
  ((32 <=? n) && negb (n =? 34) && negb (n =? 38) && negb (n =? 60))%nat%bool.

Definition plain (s : string) : bool := string_forallb copied_char s.

(** The character a reference stands for and the length of its name,
    [r] being the text after the ampersand. *)
Definition reference (r : string) : option (ascii * nat) :=
  if prefix "amp;" r then Some ("&"%char, 4%nat)
  else if prefix "lt;" r then Some ("<"%char, 3%nat)
  else if prefix "gt;" r then Some (">"%char, 3%nat)
  else if prefix "quot;" r then Some (ascii_of_nat 34, 5%nat)
  else if prefix "#39;" r then Some ("'"%char, 4%nat)
  else None.

(** The text the parser gives for a raw value; [skip] counts the
    characters of a reference still to pass. *)
Fixpoint dom_read_from (skip : nat) (s : string) : option string :=
  match s with
  | EmptyString => Some EmptyString
  | String c r =>
      match skip with
      | S k => dom_read_from k r
      | O =>
          if (nat_of_ascii c =? 38)%nat then
            match reference r with
            | Some (ch, len) => option_map (String ch) (dom_read_from len r)
            | None => None
            end
          else if copied_char c then option_map (String c) (dom_read_from 0 r)
          else None
      end
  end.

Definition dom_read (s : string) : option string := dom_read_from 0 s.

(** [s] without the prefix [pre]. *)
Fixpoint strip (pre s : string) : option string :=
  match pre with
  | EmptyString => Some s
  | String a pre' =>
      match s with
      | String b s' => if Ascii.eqb a b then strip pre' s' else None
      | EmptyString => None
      end
  end.

(** [s] cut at the first character of code [stop]: what is before it
    and what is after it. *)
Fixpoint until (stop : nat) (s : string) : option (string * string) :=
  match s with
  | EmptyString => None
  | String c r =>
      if (nat_of_ascii c =? stop)%nat then Some (EmptyString, r)
      else
        match until stop r with
        | Some (before, after) => Some (String c before, after)
        | None => None
        end
  end.

Definition span_open : string := "<span data-path=" ++ Js.dquote.

Definition sep_html : string :=
  "<span class=" ++ Js.dquote ++ "sep" ++ Js.dquote ++ ">/</span>".

(** The spans with a [data-path] that the markup gives, each as its
    target and its label.  One round reads one span, so as many rounds
    as the markup has characters are enough. *)
Fixpoint parse_spans_n (fuel : nat) (html : string)
  : option (list (string * string)) :=
  match html with
  | EmptyString => Some []
  | String _ _ =>
      match fuel with
      | O => None
      | S fuel' =>
          match strip sep_html html with
          | Some rest => parse_spans_n fuel' rest
          | None =>
              match strip span_open html with
              | None => None
              | Some s1 =>
                  match until 34 s1 with
                  | None => None
                  | Some (raw_path, s2) =>
                      match strip ">" s2 with
                      | None => None
                      | Some s3 =>
                          match until 60 s3 with
                          | None => None
                          | Some (raw_label, s4) =>
                              match strip "/span>" s4 with
                              | None => None
                              | Some s5 =>
                                  match dom_read raw_path, dom_read raw_label,
                                        parse_spans_n fuel' s5 with
                                  | Some target, Some label, Some more =>
                                      Some ((target, label) :: more)
                                  | _, _, _ => None
                                  end
                              end
                          end
                      end
                  end
              end
          end
      end
  end.

Definition parse_spans (html : string) : option (list (string * string)) :=
  parse_spans_n (String.length html) html.

(** The clickable spans of the breadcrumb of [path], as the page holds
    them after [renderBreadcrumb(path)]: where a click on each leads, and
    what each shows. *)
Definition shown_spans (path : string) : option (list (string * string)) :=
  parse_spans (breadcrumb_html (crumbs_of path)).

Definition span_targets (path : string) : option (list string) :=
  option_map (map fst) (shown_spans path).

Definition span_labels (path : string) : option (list string) :=
  option_map (map snd) (shown_spans path).

(** Target and label of each span as the loop writes them. *)
Fixpoint written_spans (cs : list crumb) : list (string * string) :=
  match cs with
  | [] => []
  | CrumbPath a l :: rest => (a, l) :: written_spans rest
  | CrumbSep :: rest => written_spans rest
  end.

Definition plain_crumb (c : crumb) : Prop :=
  match c with
  | CrumbPath a l => plain a = true /\ plain l = true
  | CrumbSep => True
  end.

(** The characters that open or close markup or an attribute value. *)
Definition markup_char (c : ascii) : bool :=
  let n := nat_of_ascii c in
  ((n =? 60) || (n =? 62) || (n =? 34) || (n =? 39))%nat.

(** The characters [escapeHtml] rewrites. *)
Definition escaped_char (c : ascii) : bool :=
  ((nat_of_ascii c =? 38)%nat || markup_char c)%bool.

Definition no_slash (s : string) : bool :=
  string_forallb (fun c => negb (Ascii.eqb c "/")) s.

(** [b] is [a] with messages added at the end. *)
Definition extends (a b : list msg) : Prop :=
  exists more, b = (a ++ more)%list.

Definition is_start (r : request) : bool :=
  match r with ReqStartConvo => true | _ => false end.

(** A request whose reply the typing indicator waits for. *)
Definition to_agent (r : request) : bool := (is_start r || is_chat r)%bool.


(** A disabled send button and a visible typing indicator each have a
    request they wait for. *)
Definition pending_shown (p : page) : Prop :=
  (sendDisabled (sess p) = true -> existsb is_chat (inflight p) = true)
  /\ (thinking (sess p) = true -> existsb to_agent (inflight p) = true).

Definition is_begin (e : event) : bool :=
  match e with
  | ClickBeginConvo | ClickBeginFull => true
  | _ => false
  end.

(** Events of the chat side and of the explorer side of the page. *)
Definition session_event (e : event) : bool :=
  match e with
  | ClickBeginConvo | ClickBeginFull | TypeText _ | ClickSend | KeyEnter => true
  | _ => false
  end.

Definition explorer_event (e : event) : bool :=
  match e with
  | ClickRefresh | ClickBack | ClickForward | ClickUp | ClickPath _ => true
  | _ => false
  end.

(** The text of the agent message a settled chat request adds. *)
Definition chat_reply_text (r : response) : string :=
  match r with
  | Threw _ => "Network error."
  | Json data =>
      if ok data then Js.or_opt (reply data) no_reply else "Agent error."
  end.

(** The navigation buttons say what the history allows. *)
Definition buttons_ok (p : page) : Prop :=
  backDisabled (expl p) = (historyIndex (expl p) <=? 0)
  /\ fwdDisabled (expl p) =
       (historyIndex (expl p) >=? Z.of_nat (length (runsHistory (expl p))) - 1)
  /\ upDisabled (expl p) = Js.falsy (current_path p).

(** Two pages with the same history, cursor and navigation buttons. *)
Definition same_nav (p q : page) : Prop :=
  runsHistory (expl q) = runsHistory (expl p)
  /\ historyIndex (expl q) = historyIndex (expl p)
  /\ backDisabled (expl q) = backDisabled (expl p)
  /\ fwdDisabled (expl q) = fwdDisabled (expl p)
  /\ upDisabled (expl q) = upDisabled (expl p).

(** Entry 0 of the history is the root. *)
Definition root_first (p : page) : Prop :=
  nth_error (runsHistory (expl p)) 0 = Some "".

(** What the explorer keeps true of its history and buttons. *)
Definition explorer_inv (p : page) : Prop :=
  cursor_ok p /\ root_first p /\ buttons_ok p.

(** The labels as the loop writes them into the markup, and the number
    of separators it writes. *)
Fixpoint written_labels (cs : list crumb) : list string :=
  match cs with
  | [] => []
  | CrumbPath _ l :: rest => l :: written_labels rest
  | CrumbSep :: rest => written_labels rest
  end.

Fixpoint separators (cs : list crumb) : nat :=
  match cs with
  | [] => 0
  | CrumbSep :: rest => S (separators rest)
  | CrumbPath _ _ :: rest => separators rest
  end.

(** A path in canonical form: it has no empty segment. *)
Definition canonical (cwd : string) : Prop :=
  segments cwd = Js.split "/" cwd.

(** How a row of the file table presents its entry. *)
Definition presents (row : file_row) : Prop :=
  let e := row_entry row in
  (type e = "dir" /\ row_act row = Open (path e)
     /\ row_name row = (name e ++ "/")%string)
  \/ (type e <> "dir" /\ row_act row = Download (path e)
      /\ row_name row = name e).

(** ** File sizes

    [formatSize] computes on the doubles of JavaScript.  For a whole
    number of bytes below 2^53 every value it computes is that number
    divided by a power of 1024, which a double holds exactly, so the
    rationals give the same comparisons, and [toFixed], which rounds the
    exact value of its double to the nearest decimal and takes the larger
    one at a tie, gives the same digits. *)

Definition units : list string := ["B"; "KB"; "MB"; "GB"; "TB"].

(** The decimal digits of a natural number. *)
Definition digits_of (m : Z) : string :=
  NilZero.string_of_uint (N.to_uint (Z.to_N m)).

Fixpoint zeros (k : nat) : string :=
  match k with
  | O => ""
  | S k' => String "0" (zeros k')
  end.

(** The [d] digits after the point, with their leading zeros. *)
Definition fraction_digits (d : nat) (m : Z) : string :=
  let s := digits_of m in
  zeros (d - String.length s) ++ s.

(** [x.toFixed(d)] for [0 <= x < 1e21]: the nearest multiple of
    [10^-d], the larger one at a tie. *)
Definition toFixed_abs (x : Q) (d : nat) : string :=
  let scale := 10 ^ Z.of_nat d in
  let m := Qfloor (x * inject_Z scale + (1 # 2))%Q in
  match d with
  | O => digits_of m
  | _ => digits_of (m / scale) ++ "." ++ fraction_digits d (m mod scale)
  end.

Definition toFixed (x : Q) (d : nat) : string :=
  if Qle_bool 0 x then toFixed_abs x d else "-" ++ toFixed_abs (- x)%Q d.

(** The [while] loop of [formatSize]; it stops at the last unit, so as
    many rounds as there are units are enough. *)
Fixpoint formatSize_loop (fuel : nat) (n : Q) (i : nat) : Q * nat :=
  match fuel with
  | O => (n, i)
  | S fuel' =>
      if (Qle_bool 1024 n && (i <? length units - 1)%nat)%bool
      then formatSize_loop fuel' (n / 1024)%Q (S i)
      else (n, i)
  end.

(** [formatSize(bytes)]; [None] is [null] or [undefined]. *)
Definition formatSize (bytes : option Z) : string :=
  match bytes with
  | None => ""
  | Some b =>
      let (n, i) := formatSize_loop (length units) (inject_Z b) 0 in
      let d := if (negb (Qle_bool 10 n) && (0 <? i)%nat)%bool then 1%nat else 0%nat in
      toFixed n d ++ " " ++ nth i units ""
  end.

(** ** The validation drawer *)

(** The class open of the drawer and of its backdrop, and their
    [aria-hidden] attributes. *)
Record drawer_state := {
  drawerOpen : bool;
  backdropOpen : bool;
  drawerAriaHidden : bool;
  backdropAriaHidden : bool
}.

Definition openDrawer (w : drawer_state * page) : drawer_state * page :=
  ({| drawerOpen := true; backdropOpen := true;
      drawerAriaHidden := false; backdropAriaHidden := false |},
   refreshValidation (snd w)).

Definition closeDrawer (w : drawer_state * page) : drawer_state * page :=
  ({| drawerOpen := false; backdropOpen := false;
      drawerAriaHidden := true; backdropAriaHidden := true |},
   snd w).

(** The listeners of the drawer; [KeyDown] is the listener on the
    window. *)
Inductive drawer_event :=
| ClickOpenValidation
| ClickValidationTab
| ClickCloseValidation
| ClickBackdrop
| ClickRefreshValidation
| KeyDown (key : string).

Definition drawer_step (e : drawer_event) (w : drawer_state * page)
  : drawer_state * page :=
  match e with
  | ClickOpenValidation | ClickValidationTab => openDrawer w
  | ClickCloseValidation | ClickBackdrop => closeDrawer w
  | ClickRefreshValidation => (fst w, refreshValidation (snd w))
  | KeyDown key => if (key =? "Escape")%string then closeDrawer w else w
  end.

Definition drawer_run (es : list drawer_event) (w : drawer_state * page)
  : drawer_state * page :=
  fold_left (fun v e => drawer_step e v) es w.

(** The drawer and its backdrop are shown or hidden together, and
    [aria-hidden] says so. *)
Definition drawer_consistent (d : drawer_state) : Prop :=
  backdropOpen d = drawerOpen d
  /\ drawerAriaHidden d = negb (drawerOpen d)
  /\ backdropAriaHidden d = negb (drawerOpen d).

(** The events that fetch the validation report. *)
Definition fetches_report (e : drawer_event) : bool :=
  match e with
  | ClickOpenValidation | ClickValidationTab | ClickRefreshValidation => true
  | _ => false
  end.

(** ** Facts about the JavaScript operations *)

Lemma or_str_empty (a : string) : Js.or_str a "" = a.
Proof. destruct a; reflexivity. Qed.

Lemma falsy_false (a : string) : a <> "" -> Js.falsy a = false.
Proof. destruct a; [congruence | reflexivity]. Qed.

Lemma falsy_true (a : string) : Js.falsy a = true -> a = "".
Proof. destruct a; [reflexivity | discriminate]. Qed.

Lemma slice0_prefix {A} (arr : list A) (e : Z) :
  0 <= e <= Z.of_nat (length arr) ->
  Js.slice0 arr e = firstn (Z.to_nat e) arr.
Proof.
  intros He. unfold Js.slice0.
  destruct (e <? 0) eqn:Hneg; [apply Z.ltb_lt in Hneg; lia |].
  rewrite Z.min_l by lia. reflexivity.
Qed.

Lemma slice0_drop_last {A} (arr : list A) :
  Js.slice0 arr (-1) = removelast arr.
Proof.
  unfold Js.slice0. cbn [Z.ltb Z.compare].
  rewrite removelast_firstn_len. f_equal.
  destruct arr as [|a arr]; [reflexivity |].
  cbn [length]. lia.
Qed.

Lemma index_last {A} (h : list A) (x : A) :
  Js.index (h ++ [x]) (Z.of_nat (length h)) = Some x.
Proof.
  unfold Js.index.
  destruct (Z.of_nat (length h) <? 0) eqn:Hneg; [apply Z.ltb_lt in Hneg; lia |].
  rewrite Nat2Z.id, nth_error_app2 by lia.
  now rewrite Nat.sub_diag.
Qed.

(** ** History and cursor *)

Lemma navigateTo_history (path : string) (p : page) :
  cursor_ok p ->
  runsHistory (expl (navigateTo path p)) =
    (firstn (Z.to_nat (historyIndex (expl p) + 1)) (runsHistory (expl p))
       ++ [path])%list
  /\ historyIndex (expl (navigateTo path p)) = historyIndex (expl p) + 1.
Proof.
  intros Hok. unfold cursor_ok in Hok. cbn.
  rewrite or_str_empty, slice0_prefix by lia. split; reflexivity.
Qed.

Lemma navigateTo_length (path : string) (p : page) :
  cursor_ok p ->
  Z.of_nat (length (runsHistory (expl (navigateTo path p)))) =
    historyIndex (expl p) + 2.
Proof.
  intros Hok. destruct (navigateTo_history path p Hok) as [Hh _].
  rewrite Hh. unfold cursor_ok in Hok.
  rewrite length_app, length_firstn. cbn [length]. lia.
Qed.

Lemma navigateTo_cursor_ok (path : string) (p : page) :
  cursor_ok p -> cursor_ok (navigateTo path p).
Proof.
  intros Hok. unfold cursor_ok.
  rewrite (navigateTo_length path p Hok).
  destruct (navigateTo_history path p Hok) as [_ Hi]. rewrite Hi.
  unfold cursor_ok in Hok. lia.
Qed.

Lemma goBack_cursor_ok (p : page) : cursor_ok p -> cursor_ok (goBack p).
Proof.
  unfold cursor_ok, goBack. intros Hok.
  destruct (historyIndex (expl p) >? 0) eqn:Hgt; [| exact Hok].
  apply Z.gtb_lt in Hgt. cbn. lia.
Qed.

Lemma goForward_cursor_ok (p : page) : cursor_ok p -> cursor_ok (goForward p).
Proof.
  unfold cursor_ok, goForward. intros Hok.
  destruct (historyIndex (expl p) <? _) eqn:Hlt; [| exact Hok].
  apply Z.ltb_lt in Hlt. cbn. lia.
Qed.

Lemma goBack_at_start (p : page) : historyIndex (expl p) = 0 -> goBack p = p.
Proof. intros H0. unfold goBack. now rewrite H0. Qed.

Lemma goForward_at_end (p : page) :
  historyIndex (expl p) = Z.of_nat (length (runsHistory (expl p))) - 1 ->
  goForward p = p.
Proof. intros He. unfold goForward. now rewrite He, Z.ltb_irrefl. Qed.

Lemma boot_cursor_ok : cursor_ok boot.
Proof. unfold cursor_ok. cbn. lia. Qed.

Lemma nav_cursor_ok (o : nav_op) (p : page) : cursor_ok p -> cursor_ok (nav o p).
Proof.
  destruct o; cbn [nav];
    auto using navigateTo_cursor_ok, goBack_cursor_ok, goForward_cursor_ok.
Qed.

Lemma run_nav_cursor_ok (os : list nav_op) (p : page) :
  cursor_ok p -> cursor_ok (run_nav os p).
Proof.
  revert p. induction os as [|o os IH]; intros p Hok; [exact Hok |].
  cbn. apply IH, nav_cursor_ok, Hok.
Qed.

(** C4: with the cursor before the end of the history, [navigateTo(P)]
    keeps the entries up to the cursor, drops every entry after it,
    appends [P] and leaves the cursor on the appended entry, which is the
    last one. *)
Theorem C4_navigateTo_truncates_forward (p : page) (P : string)
  (Hlow : 0 <= historyIndex (expl p))
  (Hnotend : historyIndex (expl p) < Z.of_nat (length (runsHistory (expl p))) - 1) :
  let i := historyIndex (expl p) in
  let q := navigateTo P p in
  runsHistory (expl q) =
    (firstn (Z.to_nat (i + 1)) (runsHistory (expl p)) ++ [P])%list
  /\ historyIndex (expl q) = i + 1
  /\ historyIndex (expl q) = Z.of_nat (length (runsHistory (expl q))) - 1
  /\ Js.index (runsHistory (expl q)) (historyIndex (expl q)) = Some P
  /\ (length (runsHistory (expl q)) <= length (runsHistory (expl p)))%nat.
Proof.
  intros i q.
  assert (Hok : cursor_ok p) by (unfold cursor_ok; lia).
  destruct (navigateTo_history P p Hok) as [Hh Hi].
  pose proof (navigateTo_length P p Hok) as Hlen.
  fold q in Hh, Hi, Hlen. fold i in Hh, Hi, Hlen.
  split; [exact Hh |]. split; [exact Hi |].
  split; [lia |]. split.
  - rewrite Hh, Hi.
    set (h := firstn (Z.to_nat (i + 1)) (runsHistory (expl p))).
    assert (Hl : i + 1 = Z.of_nat (length h))
      by (subst h; rewrite length_firstn; subst i; lia).
    rewrite Hl. apply index_last.
  - subst i. lia.
Qed.

Lemma C4_navigateTo_truncates_forward_witness :
  let p := run_nav [NavigateTo "a"; NavigateTo "a/b"; GoBack; GoBack] boot in
  runsHistory (expl p) = [""; "a"; "a/b"]
  /\ historyIndex (expl p) = 0
  /\ runsHistory (expl (navigateTo "c" p)) = [""; "c"]
  /\ historyIndex (expl (navigateTo "c" p)) = 1.
Proof.
  cbv zeta.
  pose proof (C4_navigateTo_truncates_forward
    (run_nav [NavigateTo "a"; NavigateTo "a/b"; GoBack; GoBack] boot) "c"
    ltac:(vm_compute; discriminate) ltac:(vm_compute; reflexivity))
    as [Hh [Hi _]].
  split; [reflexivity |]. split; [reflexivity |].
  split; [exact Hh | exact Hi].
Defined.

(** C5: after any sequence of [navigateTo], [goBack] and [goForward] from
    the booted page the cursor lies in [0, length - 1]; [goBack] at cursor
    0 and [goForward] at the last index return the page as it was. *)
Theorem C5_cursor_stays_in_range (os : list nav_op) :
  let p := run_nav os boot in
  0 <= historyIndex (expl p) <= Z.of_nat (length (runsHistory (expl p))) - 1
  /\ (historyIndex (expl p) = 0 -> goBack p = p)
  /\ (historyIndex (expl p) = Z.of_nat (length (runsHistory (expl p))) - 1 ->
      goForward p = p).
Proof.
  intros p.
  pose proof (run_nav_cursor_ok os boot boot_cursor_ok) as Hok.
  fold p in Hok. unfold cursor_ok in Hok.
  split; [lia |].
  split; [apply goBack_at_start | apply goForward_at_end].
Qed.

Lemma C5_cursor_stays_in_range_witness :
  let p := run_nav [NavigateTo "a"; GoBack] boot in
  historyIndex (expl p) = 0 /\ goBack p = p
  /\ goForward (run_nav [NavigateTo "a"] boot) = run_nav [NavigateTo "a"] boot.
Proof.
  cbv zeta. split; [reflexivity |]. split.
  - apply (C5_cursor_stays_in_range [NavigateTo "a"; GoBack]). reflexivity.
  - apply (C5_cursor_stays_in_range [NavigateTo "a"]). reflexivity.
Defined.

(** ** Going up *)

Lemma navigateTo_fetch (path : string) (p : page) :
  cursor_ok p ->
  inflight (navigateTo path p) = (inflight p ++ [ReqList path])%list.
Proof.
  intros Hok. unfold cursor_ok in Hok.
  unfold navigateTo, updateNavButtons, set_navButtons, with_expl.
  cbn [inflight]. unfold refreshFiles, send. cbn [inflight].
  do 2 f_equal. f_equal.
  unfold current_path. cbn [expl set_history with_expl runsHistory historyIndex].
  rewrite or_str_empty, slice0_prefix by lia.
  set (h := firstn _ _).
  assert (Hl : historyIndex (expl p) + 1 = Z.of_nat (length h))
    by (subst h; rewrite length_firstn; lia).
  rewrite Hl, index_last. cbn. apply or_str_empty.
Qed.

(** C7: [goUp] returns the page untouched when the current path is the
    root; otherwise it calls [navigateTo] on the current path without its
    last segment, so the parent is appended after the cursor as a new
    entry, the cursor moves forward onto it and its listing is fetched. *)
Theorem C7_goUp_navigates_to_parent (p : page) :
  (current_path p = "" -> goUp p = p)
  /\ (current_path p <> "" -> cursor_ok p ->
      let parent := Js.join "/" (removelast (Js.split "/" (current_path p))) in
      goUp p = navigateTo parent p
      /\ runsHistory (expl (goUp p)) =
           (firstn (Z.to_nat (historyIndex (expl p) + 1)) (runsHistory (expl p))
              ++ [parent])%list
      /\ historyIndex (expl (goUp p)) = historyIndex (expl p) + 1
      /\ inflight (goUp p) = (inflight p ++ [ReqList parent])%list).
Proof.
  split.
  - intros Hroot. unfold goUp. now rewrite Hroot.
  - intros Hcur Hok parent.
    assert (Hgo : goUp p = navigateTo parent p).
    { unfold goUp. rewrite (falsy_false _ Hcur).
      unfold parent_of. now rewrite slice0_drop_last. }
    rewrite Hgo.
    destruct (navigateTo_history parent p Hok) as [Hh Hi].
    split; [reflexivity |]. split; [exact Hh |]. split; [exact Hi |].
    apply navigateTo_fetch, Hok.
Qed.

Lemma C7_goUp_navigates_to_parent_witness :
  let p := run_nav [NavigateTo "a"; NavigateTo "a/b"] boot in
  goUp boot = boot
  /\ runsHistory (expl (goUp p)) = [""; "a"; "a/b"; "a"]
  /\ historyIndex (expl (goUp p)) = 3.
Proof.
  cbv zeta. split.
  - apply (proj1 (C7_goUp_navigates_to_parent boot)). reflexivity.
  - pose proof (proj2 (C7_goUp_navigates_to_parent
      (run_nav [NavigateTo "a"; NavigateTo "a/b"] boot))
      ltac:(vm_compute; discriminate)
      ltac:(unfold cursor_ok; vm_compute; split; [discriminate | reflexivity]))
      as [_ [Hh [Hi _]]].
    split; [exact Hh | exact Hi].
Defined.

(** The scenario of the spec: after going back from a/b to a, going up
    from a appends the root and the entry a/b is no longer ahead. *)
Example goUp_discards_forward_history :
  let p := run_nav [NavigateTo "a"; NavigateTo "a/b"; GoBack] boot in
  runsHistory (expl (goUp p)) = [""; "a"; ""]
  /\ historyIndex (expl (goUp p)) = 2
  /\ goForward (goUp p) = goUp p.
Proof. vm_compute. split; [| split]; reflexivity. Qed.

(** ** Breadcrumb *)

Lemma append_assoc (a b c : string) : ((a ++ b) ++ c = a ++ (b ++ c))%string.
Proof. induction a as [|x a IH]; cbn; [reflexivity | now rewrite IH]. Qed.

Lemma join_snoc (pre : list string) (p : string) :
  pre <> [] ->
  Js.join "/" (pre ++ [p]) = (Js.join "/" pre ++ "/" ++ p)%string.
Proof.
  unfold Js.join.
  induction pre as [|x [|y r] IH]; intros Hne; [congruence | reflexivity |].
  change (String.concat "/" ((x :: y :: r) ++ [p]))
    with (x ++ "/" ++ String.concat "/" ((y :: r) ++ [p]))%string.
  rewrite IH by discriminate.
  change (String.concat "/" (x :: y :: r))
    with (x ++ "/" ++ String.concat "/" (y :: r))%string.
  now rewrite !append_assoc.
Qed.

Lemma join_nonempty (pre : list string) :
  Forall (fun s => s <> "") pre -> pre <> [] ->
  Js.falsy (Js.join "/" pre) = false.
Proof.
  intros Hall Hne. destruct pre as [|x r]; [congruence |].
  inversion Hall as [|? ? Hx _]; subst.
  destruct x as [|c x]; [congruence |].
  destruct r; reflexivity.
Qed.

Lemma crumbs_loop_skips_empty (parts : list string) (acc : string) :
  crumbs_loop parts acc = crumbs_loop (filter nonempty parts) acc.
Proof.
  revert acc. induction parts as [|p rest IH]; intros acc; [reflexivity |].
  cbn [crumbs_loop filter]. unfold nonempty at 1.
  destruct (Js.falsy p) eqn:Hp; cbn [negb].
  - apply IH.
  - cbn [crumbs_loop]. rewrite Hp. now rewrite IH.
Qed.

Lemma nonempty_segments (parts : list string) :
  Forall (fun s => s <> "") (filter nonempty parts).
Proof.
  apply Forall_forall. intros s Hin. apply filter_In in Hin as [_ Hs].
  intros ->. discriminate.
Qed.

(** The accumulator of the loop is the join of the segments seen so far. *)
Lemma written_paths_loop (segs pre : list string) :
  Forall (fun s => s <> "") segs ->
  Forall (fun s => s <> "") pre ->
  written_paths (crumbs_loop segs (Js.join "/" pre)) =
    map (fun i => Js.join "/" (pre ++ firstn (S i) segs)) (seq 0 (length segs)).
Proof.
  revert pre. induction segs as [|p rest IH]; intros pre Hsegs Hpre;
    [reflexivity |].
  inversion Hsegs as [|? ? Hp Hrest]; subst.
  cbn [crumbs_loop]. rewrite (falsy_false p Hp).
  assert (Hacc : (if Js.falsy (Js.join "/" pre) then p
                  else (Js.join "/" pre ++ "/" ++ p)%string)
                 = Js.join "/" (pre ++ [p])).
  { destruct pre as [|x r]; [reflexivity |].
    rewrite join_nonempty by (assumption || discriminate).
    symmetry. apply join_snoc. discriminate. }
  rewrite Hacc. cbn [written_paths length seq map firstn].
  f_equal.
  rewrite IH by (try assumption; apply Forall_app; split; auto).
  rewrite <- seq_shift, map_map.
  apply map_ext. intros i. now rewrite <- app_assoc.
Qed.

Lemma written_paths_crumbs_of (cwd : string) :
  written_paths (crumbs_of cwd) =
    "" :: map (prefix_path (segments cwd)) (seq 0 (length (segments cwd))).
Proof.
  unfold crumbs_of. cbn [written_paths]. f_equal.
  destruct (Js.falsy cwd) eqn:Hc.
  - apply falsy_true in Hc. subst cwd. reflexivity.
  - rewrite crumbs_loop_skips_empty. fold (segments cwd).
    apply (written_paths_loop (segments cwd) []).
    + apply nonempty_segments.
    + constructor.
Qed.

(** The labels shown are the word runs and then the segments themselves. *)
Example breadcrumb_of_a_b :
  crumbs_of "a/b" =
    [CrumbPath "" "runs"; CrumbSep; CrumbPath "a" "a";
     CrumbSep; CrumbPath "a/b" "b"].
Proof. reflexivity. Qed.

(** ** Requests and their continuations *)

#[local] Arguments Js.trim : simpl never.
#[local] Arguments Js.escapeHtml : simpl never.
#[local] Arguments crumbs_of : simpl never.

Lemma take_out_last (req : request) (p : page) :
  take_out (length (inflight p)) (send req p) = p.
Proof.
  destruct p as [s e l v]. unfold take_out, send. cbn [inflight sess expl validation].
  f_equal.
  rewrite firstn_app, Nat.sub_diag, firstn_all, skipn_app, skipn_all2 by lia.
  replace (S (length l) - length l)%nat with 1%nat by lia.
  cbn. now rewrite !app_nil_r.
Qed.

(** The request sent last settles: its continuation runs on the page as
    the sender left it. *)
Lemma resolve_sent (req : request) (r : response) (p : page) :
  resolve (length (inflight p)) r (send req p) =
    match req with
    | ReqStartConvo => startConversational_settle r p
    | ReqChat _ _ b => sendMessage_settle b r p
    | ReqList _ => refreshFiles_settle r p
    | ReqValidation => refreshValidation_settle r p
    end.
Proof.
  unfold resolve.
  replace (nth_error (inflight (send req p)) (length (inflight p)))
    with (Some req).
  - now rewrite take_out_last.
  - unfold send. cbn [inflight].
    now rewrite nth_error_app2, Nat.sub_diag by lia.
Qed.

Lemma submit_unfold (text : string) (p : page) :
  Js.trim text <> "" ->
  (is_full (mode (sess p)) && fullUsed (sess p))%bool = false ->
  submit text p =
    let p3 := setThinking true (set_sendDisabled true
                (set_inputValue "" (addMsg user (Js.trim text)
                   (set_inputValue text p)))) in
    match mode (sess p) with
    | ModeConvo => send (ReqChat "/api/chat_convo" (Js.trim text) BranchConvo) p3
    | ModeFull =>
        send (ReqChat (if fullUsed (sess p) then "/api/chat_full"
                       else "/api/start_full") (Js.trim text) BranchFull) p3
    | ModeNull => sendMessage_finally (addMsg agent pick_a_mode p3)
    end.
Proof.
  intros Htext Hgate. unfold submit, sendMessage.
  cbn [sess set_inputValue with_sess inputValue mode fullUsed].
  rewrite or_str_empty, (falsy_false _ Htext), Hgate. reflexivity.
Qed.

Lemma submit_consumed (text : string) (p : page) :
  mode (sess p) = ModeFull -> fullUsed (sess p) = true ->
  submit text p = set_inputValue text p.
Proof.
  intros Hm Hu. unfold submit, sendMessage.
  cbn [sess set_inputValue with_sess inputValue mode fullUsed].
  rewrite Hm, Hu. cbn [is_full andb].
  now destruct (Js.falsy _).
Qed.

(** C10: with no mode chosen, submitting a non-empty text sends no chat
    request; the transcript gets the user's text and then one agent
    message asking to pick a mode, and the listing and the validation
    report are fetched afterwards. *)
Theorem C10_submit_without_mode (p : page) (text : string)
  (Hmode : mode (sess p) = ModeNull) (Htext : Js.trim text <> "") :
  let q := submit text p in
  chat (sess q) =
    (chat (sess p) ++ [say user (Js.trim text); say agent pick_a_mode])%list
  /\ chat_inflight q = chat_inflight p
  /\ inflight q = (inflight p ++ [ReqList (current_path p); ReqValidation])%list
  /\ mode (sess q) = ModeNull
  /\ sendDisabled (sess q) = false.
Proof.
  intros q. subst q. rewrite submit_unfold by (try rewrite Hmode; auto).
  rewrite Hmode. cbn.
  split; [now rewrite <- app_assoc |].
  split.
  { unfold chat_inflight. cbn. rewrite <- app_assoc, filter_app. cbn.
    apply app_nil_r. }
  split; [now rewrite <- app_assoc |].
  split; [exact Hmode | reflexivity].
Qed.

Lemma C10_submit_without_mode_witness :
  let q := submit " hello " boot in
  chat (sess q) = [say user "hello"; say agent pick_a_mode]
  /\ chat_inflight q = []
  /\ inflight q = [ReqList ""; ReqList ""; ReqValidation].
Proof.
  cbv zeta.
  pose proof (C10_submit_without_mode boot " hello "
    eq_refl ltac:(vm_compute; discriminate)) as [Hc [Hi [Hf _]]].
  split; [exact Hc |]. split; [exact Hi | exact Hf].
Defined.

(** C8: when the start request of [startConversational] fails, by a
    rejected promise or by a reply that is not ok, one agent message
    with the error text follows the starting notice, the mode is convo,
    and the next non-empty submit goes to the conversational chat
    endpoint. *)
Theorem C8_failed_start_stays_conversational (p : page) (r : response)
  (Hfail : failed r = true) :
  let p1 := startConversational p in
  let q := resolve (length (inflight p)) r p1 in
  mode (sess q) = ModeConvo
  /\ chat (sess p1) = (chat (sess p) ++ [say agent starting_notice])%list
  /\ (exists err, (err = start_failed \/ err = start_network_error)
        /\ chat (sess q) = (chat (sess p1) ++ [say agent err])%list)
  /\ (forall text, Js.trim text <> "" ->
        inflight (submit text q) =
          (inflight q ++ [ReqChat "/api/chat_convo" (Js.trim text) BranchConvo])%list).
Proof.
  intros p1 q.
  assert (Hq : q = startConversational_settle r
                 (setThinking true (addMsg agent starting_notice
                    (set_inputValue "" (set_fullUsed false (set_mode ModeConvo p)))))).
  { subst q p1. unfold startConversational.
    exact (resolve_sent ReqStartConvo r
             (setThinking true (addMsg agent starting_notice
                (set_inputValue "" (set_fullUsed false (set_mode ModeConvo p)))))). }
  assert (Hm : mode (sess q) = ModeConvo).
  { rewrite Hq. unfold startConversational_settle.
    destruct r as [err | data]; [reflexivity |].
    destruct (ok data); reflexivity. }
  split; [exact Hm |]. split; [reflexivity |]. split.
  - rewrite Hq. destruct r as [err | data].
    + exists start_network_error. split; [now right | reflexivity].
    + cbn in Hfail. exists start_failed. split; [now left |].
      unfold startConversational_settle.
      destruct (ok data); [discriminate | reflexivity].
  - intros text Htext.
    rewrite submit_unfold by (try rewrite Hm; auto).
    rewrite Hm. reflexivity.
Qed.

Lemma C8_failed_start_stays_conversational_witness :
  let q := resolve 1 (Threw "TypeError: Failed to fetch")
             (startConversational boot) in
  mode (sess q) = ModeConvo
  /\ inflight (submit "hi" q) =
       (inflight q ++ [ReqChat "/api/chat_convo" "hi" BranchConvo])%list.
Proof.
  cbv zeta.
  pose proof (C8_failed_start_stays_conversational boot
    (Threw "TypeError: Failed to fetch") eq_refl) as [Hm [_ [_ Hs]]].
  split; [exact Hm |].
  apply (Hs "hi"). vm_compute. discriminate.
Defined.

(** ** The one-shot guard of Full Prompt mode *)

Lemma sendMessage_settle_mode (b : chat_branch) (r : response) (p : page) :
  mode (sess (sendMessage_settle b r p)) = mode (sess p).
Proof.
  unfold sendMessage_settle. destruct r as [err | data]; [reflexivity |].
  destruct (ok data), b; reflexivity.
Qed.

Lemma sendMessage_settle_fullUsed (b : chat_branch) (r : response) (p : page) :
  fullUsed (sess (sendMessage_settle b r p)) =
    match r, b with
    | Json _, BranchFull => true
    | _, _ => fullUsed (sess p)
    end.
Proof.
  unfold sendMessage_settle. destruct r as [err | data]; [reflexivity |].
  destruct (ok data), b; reflexivity.
Qed.

(** C2, as the script has it: the first non-empty submit in Full Prompt
    mode goes to the start endpoint; when the request settles with a
    reply, ok or not, [fullUsed] becomes true and every later submit
    leaves the page as it is; when it settles by a thrown error
    [fullUsed] stays false and the next non-empty submit is sent to the
    start endpoint again. *)
Theorem C2_full_prompt_consumed_by_reply (p : page) (text : string)
  (r : response)
  (Hmode : mode (sess p) = ModeFull)
  (Hfresh : fullUsed (sess p) = false)
  (Htext : Js.trim text <> "") :
  let p1 := submit text p in
  let q := resolve (length (inflight p)) r p1 in
  inflight p1 =
    (inflight p ++ [ReqChat "/api/start_full" (Js.trim text) BranchFull])%list
  /\ mode (sess q) = ModeFull
  /\ match r with
     | Json _ =>
         fullUsed (sess q) = true
         /\ forall t, submit t q = set_inputValue t q
     | Threw _ =>
         fullUsed (sess q) = false
         /\ forall t, Js.trim t <> "" ->
              inflight (submit t q) =
                (inflight q ++ [ReqChat "/api/start_full" (Js.trim t) BranchFull])%list
     end.
Proof.
  intros p1 q.
  assert (Hgate : (is_full (mode (sess p)) && fullUsed (sess p))%bool = false)
    by (rewrite Hfresh; apply andb_false_r).
  pose proof (submit_unfold text p Htext Hgate) as Hp1.
  rewrite Hmode, Hfresh in Hp1. cbv zeta in Hp1. fold p1 in Hp1.
  set (p3 := setThinking true _) in Hp1.
  assert (Hq : q = sendMessage_settle BranchFull r p3).
  { subst q. rewrite Hp1.
    exact (resolve_sent (ReqChat "/api/start_full" (Js.trim text) BranchFull) r p3). }
  assert (Hm : mode (sess q) = ModeFull)
    by (rewrite Hq, sendMessage_settle_mode; exact Hmode).
  assert (Hu : fullUsed (sess q) =
               match r with Json _ => true | Threw _ => false end).
  { rewrite Hq, sendMessage_settle_fullUsed.
    destruct r; [exact Hfresh | reflexivity]. }
  split; [rewrite Hp1; reflexivity |]. split; [exact Hm |].
  destruct r as [err | data]; (split; [exact Hu |]).
  - intros t Ht.
    rewrite submit_unfold by (try rewrite Hu; auto using andb_false_r).
    rewrite Hm, Hu. reflexivity.
  - intros t. apply submit_consumed; assumption.
Qed.

Lemma C2_full_prompt_consumed_by_reply_witness :
  let p := startFullPromptMode boot in
  let reject :=
    Json {| ok := false; reply := None; p_cwd := None;
            entries := None; md := None |} in
  let q := resolve 1 reject (submit "hello" p) in
  fullUsed (sess q) = true /\ submit "again" q = set_inputValue "again" q.
Proof.
  cbv zeta.
  pose proof (C2_full_prompt_consumed_by_reply (startFullPromptMode boot)
    "hello"
    (Json {| ok := false; reply := None; p_cwd := None;
             entries := None; md := None |})
    eq_refl eq_refl ltac:(vm_compute; discriminate)) as [_ [_ [Hu Hnoop]]].
  split; [exact Hu | exact (Hnoop "again")].
Defined.

(** C2 as the claim words it fails: after a network failure of the first
    submit the flag is still false and a second submit is sent. *)
Lemma C2_network_failure_keeps_allowance :
  let p := startFullPromptMode boot in
  let q := resolve 1 (Threw "TypeError: Failed to fetch") (submit "hello" p) in
  mode (sess q) = ModeFull
  /\ chat_inflight (submit "hello" p) =
       [ReqChat "/api/start_full" "hello" BranchFull]
  /\ chat_inflight q = []
  /\ fullUsed (sess q) = false
  /\ submit "again" q <> set_inputValue "again" q
  /\ chat_inflight (submit "again" q) =
       [ReqChat "/api/start_full" "again" BranchFull].
Proof.
  vm_compute. repeat (split; [reflexivity |]).
  split; [discriminate | reflexivity].
Qed.

(** ** Submitting while a chat request is pending *)

(** The button path: while the button is disabled a click changes nothing. *)
Lemma click_send_disabled (p : page) :
  sendDisabled (sess p) = true -> step ClickSend p = p.
Proof. intros Hd. cbn [step]. now rewrite Hd. Qed.

(** C3, evaluated on the script: a first message is pending in
    conversational mode and the button is disabled; a click on it does
    nothing, but typing again and pressing Enter appends the second text
    to the transcript and puts a second chat request in flight. *)
Theorem C3_enter_key_submits_while_pending :
  let p := run [ClickBeginConvo; TypeText "a"; KeyEnter] boot in
  let q := run [TypeText "b"; KeyEnter] p in
  chat_inflight p = [ReqChat "/api/chat_convo" "a" BranchConvo]
  /\ sendDisabled (sess p) = true
  /\ run [TypeText "b"; ClickSend] p = set_inputValue "b" p
  /\ chat (sess q) = (chat (sess p) ++ [say user "b"])%list
  /\ chat_inflight q =
       [ReqChat "/api/chat_convo" "a" BranchConvo;
        ReqChat "/api/chat_convo" "b" BranchConvo].
Proof. vm_compute. repeat (split; [reflexivity |]). reflexivity. Qed.

(** ** Listing responses *)

Lemma resolve_listing (k : nat) (P : string) (r : response) (p : page) :
  nth_error (inflight p) k = Some (ReqList P) ->
  resolve k r p = refreshFiles_settle r (take_out k p).
Proof. intros Hreq. unfold resolve. now rewrite Hreq. Qed.

Lemma refreshFiles_settle_history (r : response) (p : page) :
  runsHistory (expl (refreshFiles_settle r p)) = runsHistory (expl p)
  /\ historyIndex (expl (refreshFiles_settle r p)) = historyIndex (expl p)
  /\ backDisabled (expl (refreshFiles_settle r p)) = backDisabled (expl p)
  /\ fwdDisabled (expl (refreshFiles_settle r p)) = fwdDisabled (expl p).
Proof.
  unfold refreshFiles_settle. destruct r as [err | data].
  - repeat (split; [reflexivity |]). reflexivity.
  - destruct (negb (ok data)).
    + repeat (split; [reflexivity |]). reflexivity.
    + destruct (entries data) as [[|e es] |];
        repeat (split; [reflexivity |]); reflexivity.
Qed.

(** C1, as the script has it: a listing reply that is ok is applied when
    it resolves, whatever path it was requested for and whatever the
    current path is by then: [cwd] becomes the cwd of the reply, the
    breadcrumb is rebuilt from it and the file view shows its entries;
    the history and the cursor are left alone. *)
Theorem C1_listing_reply_applied_on_arrival (p : page) (k : nat) (P : string)
  (data : payload)
  (Hreq : nth_error (inflight p) k = Some (ReqList P))
  (Hok : ok data = true) :
  let q := resolve k (Json data) p in
  cwd (expl q) = Js.or_opt (p_cwd data) ""
  /\ breadcrumb (expl q) = crumbs_of (Js.or_opt (p_cwd data) "")
  /\ files (expl q) = listing_view data
  /\ runsHistory (expl q) = runsHistory (expl p)
  /\ historyIndex (expl q) = historyIndex (expl p).
Proof.
  intros q. subst q. rewrite (resolve_listing k P _ p Hreq).
  unfold refreshFiles_settle, listing_view. rewrite Hok. cbn [negb].
  destruct (entries data) as [[|e es] |];
    repeat (split; [reflexivity |]); reflexivity.
Qed.

Lemma C1_listing_reply_applied_on_arrival_witness :
  let p := run [ClickPath "a"] boot in
  let q := resolve 0 (listing_reply "" [a_folder]) p in
  current_path p = "a"
  /\ cwd (expl q) = ""
  /\ files (expl q) = FilesRows [render_row a_folder].
Proof.
  cbv zeta.
  pose proof (C1_listing_reply_applied_on_arrival (run [ClickPath "a"] boot) 0 ""
    {| ok := true; reply := None; p_cwd := Some "";
       entries := Some [a_folder]; md := None |} eq_refl eq_refl)
    as [Hc [_ [Hf _]]].
  split; [reflexivity |]. split; [exact Hc | exact Hf].
Defined.

(** C1 as the claim words it fails: the page is at a and shows the
    listing of a; the reply to the boot request for the root arrives
    late and replaces both the file view and [cwd]. *)
Lemma C1_stale_listing_is_applied :
  let p := run [ClickPath "a"; Resolve 1 (listing_reply "a" [a_file])] boot in
  let q := resolve 0 (listing_reply "" [a_folder]) p in
  nth_error (inflight p) 0 = Some (ReqList "")
  /\ current_path p = "a"
  /\ cwd (expl p) = "a"
  /\ files (expl p) = FilesRows [render_row a_file]
  /\ current_path q = "a"
  /\ cwd (expl q) = ""
  /\ files (expl q) = FilesRows [render_row a_folder]
  /\ files (expl q) <> files (expl p)
  /\ cwd (expl q) <> current_path q.
Proof.
  vm_compute. repeat (split; [reflexivity |]).
  split; discriminate.
Qed.

(** C9: when a listing fetch fails, by a rejected promise or by a reply
    that is not ok, the file view becomes the single line saying that
    loading failed; the history, the cursor, the state of the back and
    forward buttons, [cwd] and the breadcrumb stay as they were, and
    [goBack] and [goForward] lead where they led before. *)
Theorem C9_failed_listing_keeps_history (p : page) (k : nat) (P : string)
  (r : response)
  (Hreq : nth_error (inflight p) k = Some (ReqList P))
  (Hfail : failed r = true) :
  let q := resolve k r p in
  files (expl q) = failed_row (failure_text r)
  /\ runsHistory (expl q) = runsHistory (expl p)
  /\ historyIndex (expl q) = historyIndex (expl p)
  /\ backDisabled (expl q) = backDisabled (expl p)
  /\ fwdDisabled (expl q) = fwdDisabled (expl p)
  /\ cwd (expl q) = cwd (expl p)
  /\ breadcrumb (expl q) = breadcrumb (expl p)
  /\ runsHistory (expl (goBack q)) = runsHistory (expl (goBack p))
  /\ historyIndex (expl (goBack q)) = historyIndex (expl (goBack p))
  /\ runsHistory (expl (goForward q)) = runsHistory (expl (goForward p))
  /\ historyIndex (expl (goForward q)) = historyIndex (expl (goForward p)).
Proof.
  intros q.
  assert (Hq : q = refreshFiles_settle r (take_out k p))
    by (subst q; apply (resolve_listing k P r p Hreq)).
  assert (Hexpl : expl q = expl (set_files (failed_row (failure_text r)) p)).
  { rewrite Hq. unfold refreshFiles_settle. destruct r as [err | data].
    - reflexivity.
    - cbn in Hfail. rewrite Hfail. reflexivity. }
  assert (Hh : runsHistory (expl q) = runsHistory (expl p))
    by (rewrite Hexpl; reflexivity).
  assert (Hi : historyIndex (expl q) = historyIndex (expl p))
    by (rewrite Hexpl; reflexivity).
  split; [rewrite Hexpl; reflexivity |].
  split; [exact Hh |]. split; [exact Hi |].
  do 4 (split; [rewrite Hexpl; reflexivity |]).
  unfold goBack, goForward. rewrite Hh, Hi.
  destruct (historyIndex (expl p) >? 0),
    (historyIndex (expl p) <? Z.of_nat (length (runsHistory (expl p))) - 1);
    cbn; auto.
Qed.

Lemma C9_failed_listing_keeps_history_witness :
  let p := run [ClickPath "a"] boot in
  let q := resolve 1 (Threw "TypeError: Failed to fetch") p in
  files (expl q) = FilesMuted "Failed to load. TypeError: Failed to fetch"
  /\ runsHistory (expl q) = [""; "a"]
  /\ historyIndex (expl q) = 1
  /\ historyIndex (expl (goBack q)) = 0.
Proof.
  cbv zeta.
  pose proof (C9_failed_listing_keeps_history (run [ClickPath "a"] boot) 1 "a"
    (Threw "TypeError: Failed to fetch") eq_refl eq_refl)
    as [Hf [Hh [Hi [_ [_ [_ [_ [_ [Hb _]]]]]]]]].
  split; [exact Hf |]. split; [exact Hh |]. split; [exact Hi | exact Hb].
Defined.

(** A reply that is not ok gives the same line with the text of the
    error the script throws. *)
Example rejected_listing_view :
  let reject :=
    Json {| ok := false; reply := None; p_cwd := Some "a";
            entries := None; md := None |} in
  files (expl (resolve 0 reject boot))
    = FilesMuted "Failed to load. Error: List failed"
  /\ cwd (expl (resolve 0 reject boot)) = "".
Proof. vm_compute. split; reflexivity. Qed.

(** The cursor stays inside the history under every event of the page,
    replies included. *)
Lemma step_cursor_ok (e : event) (p : page) : cursor_ok p -> cursor_ok (step e p).
Proof.
  intros Hok. destruct e; cbn [step]; try exact Hok.
  - destruct (sendDisabled (sess p)); [exact Hok |].
    unfold sendMessage.
    destruct (Js.falsy _); [exact Hok |].
    destruct (_ && _)%bool; [exact Hok |].
    cbn [sess set_inputValue setThinking set_sendDisabled addMsg set_chat
         with_sess mode].
    destruct (mode (sess p)); exact Hok.
  - unfold sendMessage.
    destruct (Js.falsy _); [exact Hok |].
    destruct (_ && _)%bool; [exact Hok |].
    cbn [sess set_inputValue setThinking set_sendDisabled addMsg set_chat
         with_sess mode].
    destruct (mode (sess p)); exact Hok.
  - destruct (backDisabled (expl p)); [exact Hok | now apply goBack_cursor_ok].
  - destruct (fwdDisabled (expl p)); [exact Hok | now apply goForward_cursor_ok].
  - destruct (upDisabled (expl p)); [exact Hok |].
    unfold goUp. destruct (Js.falsy _); [exact Hok |].
    now apply navigateTo_cursor_ok.
  - now apply navigateTo_cursor_ok.
  - unfold resolve. destruct (nth_error (inflight p) k) as [req |]; [| exact Hok].
    destruct req.
    + unfold startConversational_settle. destruct r as [err | data];
        [exact Hok | destruct (ok data); exact Hok].
    + unfold sendMessage_settle. destruct r as [err | data]; [exact Hok |].
      destruct (ok data), branch; exact Hok.
    + unfold cursor_ok.
      destruct (refreshFiles_settle_history r (take_out k p)) as [Hh [Hi _]].
      rewrite Hh, Hi. exact Hok.
    + destruct r; exact Hok.
Qed.

Lemma run_cursor_ok (es : list event) (p : page) :
  cursor_ok p -> cursor_ok (run es p).
Proof.
  revert p. induction es as [|e es IH]; intros p Hok; [exact Hok |].
  cbn. apply IH, step_cursor_ok, Hok.
Qed.

(** ** Trimming *)

Lemma trimStart_space (c : ascii) (r : string) :
  Js.ascii_space c = true -> Js.trimStart (String c r) = Js.trimStart r.
Proof.
  intros Hc. cbn [Js.trimStart Js.space_width]. now rewrite Hc.
Qed.


Lemma trimStart_blank (s : string) : blank s = true -> Js.trimStart s = "".
Proof.
  induction s as [|c r IH]; [reflexivity |].
  unfold blank. cbn [string_forallb]. intros Hb.
  apply andb_true_iff in Hb as [Hc Hr].
  rewrite (trimStart_space c r Hc). now apply IH.
Qed.

Lemma trim_blank (s : string) : blank s = true -> Js.trim s = "".
Proof. intros Hb. unfold Js.trim. now rewrite trimStart_blank. Qed.






(** ** The shapes of a step *)

(** [sendMessage] either returns at one of its two guards or appends the
    trimmed text and goes on by the mode. *)
Lemma sendMessage_cases (p : page) :
  sendMessage p = p
  \/ exists text,
       text = Js.trim (inputValue (sess p)) /\ text <> ""
       /\ let p3 := setThinking true (set_sendDisabled true
                      (set_inputValue "" (addMsg user text p))) in
          (mode (sess p) = ModeConvo
           /\ sendMessage p = send (ReqChat "/api/chat_convo" text BranchConvo) p3)
          \/ (mode (sess p) = ModeFull /\ fullUsed (sess p) = false
              /\ sendMessage p = send (ReqChat "/api/start_full" text BranchFull) p3)
          \/ (mode (sess p) = ModeNull
              /\ sendMessage p = sendMessage_finally (addMsg agent pick_a_mode p3)).
Proof.
  unfold sendMessage. rewrite or_str_empty.
  destruct (Js.falsy (Js.trim (inputValue (sess p)))) eqn:Hblank; [now left |].
  destruct (is_full (mode (sess p)) && fullUsed (sess p))%bool eqn:Hgate;
    [now left |].
  right. exists (Js.trim (inputValue (sess p))).
  split; [reflexivity |].
  split; [intros Hempty; rewrite Hempty in Hblank; discriminate |].
  cbn [sess setThinking set_sendDisabled set_inputValue addMsg set_chat
       with_sess mode fullUsed].
  destruct (mode (sess p)) eqn:Hm.
  - right. right. now split.
  - left. now split.
  - right. left. cbn in Hgate. rewrite Hgate. now repeat split.
Qed.

(** A request that settles is taken out of the waiting ones and its
    continuation runs; an index beyond them changes nothing. *)
Lemma resolve_cases (k : nat) (r : response) (p : page) :
  resolve k r p = p
  \/ exists req before after,
       inflight p = (before ++ req :: after)%list
       /\ inflight (take_out k p) = (before ++ after)%list
       /\ resolve k r p =
            match req with
            | ReqStartConvo => startConversational_settle r (take_out k p)
            | ReqChat _ _ b => sendMessage_settle b r (take_out k p)
            | ReqList _ => refreshFiles_settle r (take_out k p)
            | ReqValidation => refreshValidation_settle r (take_out k p)
            end.
Proof.
  unfold resolve. destruct (nth_error (inflight p) k) as [req |] eqn:Hk;
    [right | now left].
  destruct (nth_error_split _ _ Hk) as [before [after [Hl Hlen]]].
  exists req, before, after. split; [exact Hl |]. split; [| reflexivity].
  unfold take_out. cbn [inflight]. rewrite Hl, <- Hlen.
  rewrite firstn_app, Nat.sub_diag, firstn_all, skipn_app, skipn_all2 by lia.
  replace (S (length before) - length before)%nat with 1%nat by lia.
  cbn. now rewrite app_nil_r.
Qed.

Lemma run_invariant (I : page -> Prop) :
  (forall e p, I p -> I (step e p)) ->
  forall es p, I p -> I (run es p).
Proof.
  intros Hstep es. induction es as [|e es IH]; intros p Hp; [exact Hp |].
  cbn. apply IH, Hstep, Hp.
Qed.

(** X1: a text of white space only, the empty text included, is not
    submitted: [sendMessage] returns at its first guard, so no message is
    added and no request is sent. *)
Theorem X1_blank_text_not_submitted (p : page) (text : string)
  (Hblank : blank text = true) :
  Js.trim text = ""
  /\ submit text p = set_inputValue text p
  /\ chat (sess (submit text p)) = chat (sess p)
  /\ inflight (submit text p) = inflight p.
Proof.
  pose proof (trim_blank text Hblank) as Ht.
  assert (Hs : submit text p = set_inputValue text p).
  { unfold submit, sendMessage.
    cbn [sess set_inputValue with_sess inputValue].
    now rewrite or_str_empty, Ht. }
  split; [exact Ht |]. split; [exact Hs |].
  rewrite Hs. split; reflexivity.
Qed.

Lemma X1_blank_text_not_submitted_witness :
  submit "   " (startConversational boot)
    = set_inputValue "   " (startConversational boot).
Proof.
  exact (proj1 (proj2 (X1_blank_text_not_submitted
    (startConversational boot) "   " eq_refl))).
Defined.

(** ** What the continuations send *)

Lemma startConversational_settle_inflight (r : response) (p : page) :
  inflight (startConversational_settle r p) =
    (inflight p ++ [ReqList (current_path p); ReqValidation])%list.
Proof.
  unfold startConversational_settle. destruct r as [err | data].
  - cbn. now rewrite <- app_assoc.
  - destruct (ok data); cbn; now rewrite <- app_assoc.
Qed.

Lemma sendMessage_settle_inflight (b : chat_branch) (r : response) (p : page) :
  inflight (sendMessage_settle b r p) =
    (inflight p ++ [ReqList (current_path p); ReqValidation])%list.
Proof.
  unfold sendMessage_settle. destruct r as [err | data].
  - cbn. now rewrite <- app_assoc.
  - destruct (ok data), b; cbn; now rewrite <- app_assoc.
Qed.

Lemma refreshFiles_settle_inflight (r : response) (p : page) :
  inflight (refreshFiles_settle r p) = inflight p.
Proof.
  unfold refreshFiles_settle. destruct r as [err | data]; [reflexivity |].
  destruct (negb (ok data)); [reflexivity |].
  destruct (entries data) as [[|e es] |]; reflexivity.
Qed.

Lemma refreshFiles_settle_sess (r : response) (p : page) :
  sess (refreshFiles_settle r p) = sess p.
Proof.
  unfold refreshFiles_settle. destruct r as [err | data]; [reflexivity |].
  destruct (negb (ok data)); [reflexivity |].
  destruct (entries data) as [[|e es] |]; reflexivity.
Qed.

Lemma sendMessage_settle_chat (b : chat_branch) (r : response) (p : page) :
  chat (sess (sendMessage_settle b r p)) =
    (chat (sess p) ++ [say agent (chat_reply_text r)])%list.
Proof.
  unfold sendMessage_settle, chat_reply_text. destruct r as [err | data];
    [reflexivity |].
  destruct (ok data), b; reflexivity.
Qed.

Lemma or_opt_nonempty (a : option string) (d : string) :
  d <> "" -> Js.or_opt a d <> "".
Proof.
  intros Hd. destruct a as [[|c x] |]; cbn; try exact Hd. discriminate.
Qed.

(** ** The transcript *)

Lemma extends_refl (a : list msg) : extends a a.
Proof. exists []. now rewrite app_nil_r. Qed.

Lemma extends_trans (a b c : list msg) :
  extends a b -> extends b c -> extends a c.
Proof.
  intros [m1 ->] [m2 ->]. exists (m1 ++ m2)%list. now rewrite app_assoc.
Qed.

Ltac grows :=
  cbn;
  first [ apply extends_refl
        | eexists; rewrite <- ?app_assoc; reflexivity ].

Lemma sendMessage_extends (p : page) :
  extends (chat (sess p)) (chat (sess (sendMessage p))).
Proof.
  destruct (sendMessage_cases p) as [-> | [text [_ [_ Hcases]]]];
    [apply extends_refl |].
  cbv zeta in Hcases.
  destruct Hcases as [[_ ->] | [[_ [_ ->]] | [_ ->]]]; grows.
Qed.

Lemma resolve_extends (k : nat) (r : response) (p : page) :
  extends (chat (sess p)) (chat (sess (resolve k r p))).
Proof.
  destruct (resolve_cases k r p) as [-> | [req [before [after [_ [_ ->]]]]]];
    [apply extends_refl |].
  destruct req.
  - unfold startConversational_settle. destruct r as [err | data];
      [grows | destruct (ok data); grows].
  - rewrite sendMessage_settle_chat. grows.
  - rewrite refreshFiles_settle_sess. grows.
  - destruct r; grows.
Qed.

Lemma step_extends (e : event) (p : page) :
  extends (chat (sess p)) (chat (sess (step e p))).
Proof.
  destruct e; cbn [step]; try grows.
  - destruct (sendDisabled (sess p)); [apply extends_refl |].
    apply sendMessage_extends.
  - apply sendMessage_extends.
  - destruct (backDisabled (expl p)); [apply extends_refl |].
    unfold goBack. destruct (_ >? _); grows.
  - destruct (fwdDisabled (expl p)); [apply extends_refl |].
    unfold goForward. destruct (_ <? _); grows.
  - destruct (upDisabled (expl p)); [apply extends_refl |].
    unfold goUp. destruct (Js.falsy _); grows.
  - apply resolve_extends.
Qed.

(** X2: the transcript is append-only: whatever events the page handles,
    clicks, key strokes or replies in any order, the messages it showed
    before are still there, in the same order, at the start of the
    transcript. *)
Theorem X2_transcript_append_only (es : list event) (p : page) :
  extends (chat (sess p)) (chat (sess (run es p))).
Proof.
  revert p. induction es as [|e es IH]; intros p; [apply extends_refl |].
  cbn. eapply extends_trans; [apply step_extends | apply IH].
Qed.

(** X5: when a chat request settles, whatever the outcome, exactly one
    agent message is added, and its text is never empty (a reply, the
    placeholder for a missing or empty reply, or one of the two error
    texts); the send button is enabled again, the typing indicator is
    hidden, and the listing of the current path and the validation report
    are fetched, in this order. *)
Theorem X5_chat_round_settles (p : page) (k : nat) (endpoint message : string)
  (b : chat_branch) (r : response)
  (Hreq : nth_error (inflight p) k = Some (ReqChat endpoint message b)) :
  let q := resolve k r p in
  chat (sess q) = (chat (sess p) ++ [say agent (chat_reply_text r)])%list
  /\ chat_reply_text r <> ""
  /\ sendDisabled (sess q) = false
  /\ thinking (sess q) = false
  /\ inflight q =
       (inflight (take_out k p) ++ [ReqList (current_path p); ReqValidation])%list.
Proof.
  intros q. subst q. unfold resolve. rewrite Hreq.
  split; [exact (sendMessage_settle_chat b r (take_out k p)) |].
  split.
  { unfold chat_reply_text. destruct r as [err | data]; [discriminate |].
    destruct (ok data); [apply or_opt_nonempty |]; discriminate. }
  split; [unfold sendMessage_settle; destruct r as [err | data];
          [| destruct (ok data), b]; reflexivity |].
  split; [unfold sendMessage_settle; destruct r as [err | data];
          [| destruct (ok data), b]; reflexivity |].
  exact (sendMessage_settle_inflight b r (take_out k p)).
Qed.

Lemma X5_chat_round_settles_witness :
  let p := submit "hi" (startConversational boot) in
  let r := Json {| ok := true; reply := Some ""; p_cwd := None;
                   entries := None; md := None |} in
  chat (sess (resolve 2 r p)) = (chat (sess p) ++ [say agent no_reply])%list.
Proof.
  cbv zeta.
  exact (proj1 (X5_chat_round_settles
    (submit "hi" (startConversational boot)) 2 "/api/chat_convo" "hi"
    BranchConvo
    (Json {| ok := true; reply := Some ""; p_cwd := None;
             entries := None; md := None |}) eq_refl)).
Defined.

(** ** Requests in flight *)






(** ** The send button and the typing indicator *)

Lemma existsb_more {A} (f : A -> bool) (l m : list A) :
  existsb f l = true -> existsb f (l ++ m) = true.
Proof. intros H. rewrite existsb_app, H. reflexivity. Qed.

Lemma existsb_without {A} (f : A -> bool) (before after : list A) (x : A) :
  f x = false ->
  existsb f (before ++ x :: after) = existsb f (before ++ after).
Proof. intros Hx. rewrite !existsb_app. cbn. now rewrite Hx. Qed.

Lemma sendMessage_pending_shown (p : page) :
  pending_shown p -> pending_shown (sendMessage p).
Proof.
  intros [Hd Ht].
  destruct (sendMessage_cases p) as [-> | [text [_ [_ Hcases]]]];
    [now split |].
  cbv zeta in Hcases.
  destruct Hcases as [[_ ->] | [[_ [_ ->]] | [_ ->]]].
  - split; intros _; cbn [inflight send]; rewrite existsb_app; cbn;
      apply orb_true_r.
  - split; intros _; cbn [inflight send]; rewrite existsb_app; cbn;
      apply orb_true_r.
  - split; cbn; discriminate.
Qed.

Lemma resolve_pending_shown (k : nat) (r : response) (p : page) :
  pending_shown p -> pending_shown (resolve k r p).
Proof.
  intros [Hd Ht].
  destruct (resolve_cases k r p) as [-> | [req [before [after [Hl [Hout ->]]]]]];
    [now split |].
  rewrite Hl in Hd, Ht.
  destruct req as [| endpoint message branch | requested |].
  - split.
    + rewrite startConversational_settle_inflight, Hout.
      intros Hs. apply existsb_more.
      rewrite <- (existsb_without is_chat before after ReqStartConvo eq_refl).
      apply Hd. revert Hs. unfold startConversational_settle.
      destruct r as [err | data]; [| destruct (ok data)]; exact (fun H => H).
    + unfold startConversational_settle.
      destruct r as [err | data]; [| destruct (ok data)]; cbn; discriminate.
  - split; unfold sendMessage_settle;
      destruct r as [err | data]; [| destruct (ok data), branch | |
                                   destruct (ok data), branch];
      cbn; discriminate.
  - unfold pending_shown. rewrite refreshFiles_settle_inflight, Hout.
    split; rewrite refreshFiles_settle_sess; intros Hs.
    + rewrite <- (existsb_without is_chat before after (ReqList requested) eq_refl).
      now apply Hd.
    + rewrite <- (existsb_without to_agent before after (ReqList requested) eq_refl).
      now apply Ht.
  - assert (Hin : inflight (refreshValidation_settle r (take_out k p))
                  = (before ++ after)%list) by (destruct r; exact Hout).
    assert (Hse : sess (refreshValidation_settle r (take_out k p)) = sess p)
      by (destruct r; reflexivity).
    unfold pending_shown. rewrite Hin. split; rewrite Hse; intros Hs.
    + rewrite <- (existsb_without is_chat before after ReqValidation eq_refl).
      now apply Hd.
    + rewrite <- (existsb_without to_agent before after ReqValidation eq_refl).
      now apply Ht.
Qed.

Lemma step_pending_shown (e : event) (p : page) :
  pending_shown p -> pending_shown (step e p).
Proof.
  intros Hp. pose proof Hp as [Hd Ht].
  destruct e; cbn [step]; try exact Hp.
  - split; cbn; intros Hs; rewrite existsb_app; cbn.
    + rewrite (Hd Hs). reflexivity.
    + apply orb_true_r.
  - destruct (sendDisabled (sess p)); [exact Hp |].
    now apply sendMessage_pending_shown.
  - now apply sendMessage_pending_shown.
  - split; cbn; intros Hs; apply existsb_more; auto.
  - destruct (backDisabled (expl p)); [exact Hp |].
    unfold goBack. destruct (_ >? _); [| exact Hp].
    split; cbn; intros Hs; apply existsb_more; auto.
  - destruct (fwdDisabled (expl p)); [exact Hp |].
    unfold goForward. destruct (_ <? _); [| exact Hp].
    split; cbn; intros Hs; apply existsb_more; auto.
  - destruct (upDisabled (expl p)); [exact Hp |].
    unfold goUp. destruct (Js.falsy _); [exact Hp |].
    split; cbn; intros Hs; apply existsb_more; auto.
  - split; cbn; intros Hs; apply existsb_more; auto.
  - now apply resolve_pending_shown.
Qed.

(** X4: the send button is never left disabled, nor the typing
    indicator left showing, once the requests they stand for have
    settled: in every state the page reaches from boot, a disabled send
    button means that a chat request is in flight, and a visible
    indicator means that a start or chat request is in flight. *)
Theorem X4_pending_state_has_a_request (es : list event) :
  let p := run es boot in
  (sendDisabled (sess p) = true -> chat_inflight p <> [])
  /\ (thinking (sess p) = true -> existsb to_agent (inflight p) = true).
Proof.
  intros p.
  assert (Hp : pending_shown p).
  { apply (run_invariant pending_shown); [apply step_pending_shown |].
    split; cbn; discriminate. }
  destruct Hp as [Hd Ht]. split; [| exact Ht].
  intros Hs Hnone. specialize (Hd Hs).
  apply existsb_exists in Hd as [x [Hin Hx]].
  assert (Hc : In x (chat_inflight p)) by (apply filter_In; now split).
  rewrite Hnone in Hc. exact Hc.
Qed.

Lemma X4_pending_state_has_a_request_witness :
  chat_inflight (run [ClickBeginConvo; TypeText "a"; KeyEnter] boot) <> [].
Proof.
  exact (proj1 (X4_pending_state_has_a_request
    [ClickBeginConvo; TypeText "a"; KeyEnter]) eq_refl).
Defined.

(** ** Modes and the two sides of the page *)

Lemma sendMessage_mode (p : page) : mode (sess (sendMessage p)) = mode (sess p).
Proof.
  destruct (sendMessage_cases p) as [-> | [text [_ [_ Hcases]]]];
    [reflexivity |].
  cbv zeta in Hcases.
  destruct Hcases as [[_ ->] | [[_ [_ ->]] | [_ ->]]]; reflexivity.
Qed.

Lemma sendMessage_expl (p : page) : expl (sendMessage p) = expl p.
Proof.
  destruct (sendMessage_cases p) as [-> | [text [_ [_ Hcases]]]];
    [reflexivity |].
  cbv zeta in Hcases.
  destruct Hcases as [[_ ->] | [[_ [_ ->]] | [_ ->]]]; reflexivity.
Qed.

Lemma startConversational_settle_frame (r : response) (p : page) :
  expl (startConversational_settle r p) = expl p
  /\ mode (sess (startConversational_settle r p)) = mode (sess p).
Proof.
  unfold startConversational_settle.
  destruct r as [err | data]; [| destruct (ok data)]; split; reflexivity.
Qed.

Lemma sendMessage_settle_expl (b : chat_branch) (r : response) (p : page) :
  expl (sendMessage_settle b r p) = expl p.
Proof.
  unfold sendMessage_settle.
  destruct r as [err | data]; [| destruct (ok data), b]; reflexivity.
Qed.

Lemma nav_sess (o : nav_op) (p : page) : sess (nav o p) = sess p.
Proof.
  destruct o; cbn [nav]; [reflexivity | |].
  - unfold goBack. destruct (_ >? _); reflexivity.
  - unfold goForward. destruct (_ <? _); reflexivity.
Qed.

Lemma goUp_sess (p : page) : sess (goUp p) = sess p.
Proof. unfold goUp. destruct (Js.falsy _); reflexivity. Qed.

(** X7: the mode changes only through the two begin buttons: no other
    event, neither a submit nor a navigation nor a reply of any kind,
    failed ones included, sets or resets it. *)
Theorem X7_mode_changes_only_on_begin (e : event) (p : page)
  (Hother : is_begin e = false) :
  mode (sess (step e p)) = mode (sess p).
Proof.
  destruct e; cbn [step]; try discriminate; try reflexivity.
  - destruct (sendDisabled (sess p)); [reflexivity | apply sendMessage_mode].
  - apply sendMessage_mode.
  - destruct (backDisabled (expl p)); [reflexivity |].
    now rewrite (nav_sess GoBack).
  - destruct (fwdDisabled (expl p)); [reflexivity |].
    now rewrite (nav_sess GoForward).
  - destruct (upDisabled (expl p)); [reflexivity | now rewrite goUp_sess].
  - destruct (resolve_cases k r p) as [-> | [req [before [after [_ [_ ->]]]]]];
      [reflexivity |].
    destruct req.
    + apply (startConversational_settle_frame r (take_out k p)).
    + apply (sendMessage_settle_mode branch r (take_out k p)).
    + now rewrite refreshFiles_settle_sess.
    + destruct r; reflexivity.
Qed.

Lemma X7_mode_changes_only_on_begin_witness :
  mode (sess (step (Resolve 1 (Threw "TypeError: Failed to fetch"))
                (startConversational boot))) = ModeConvo.
Proof.
  exact (X7_mode_changes_only_on_begin
    (Resolve 1 (Threw "TypeError: Failed to fetch"))
    (startConversational boot) eq_refl).
Defined.

(** X8: beginning Full Prompt mode resets the one-shot guard: whatever
    the page was doing before, also with the guard already used up, the
    notice is added and the next non-empty submit is added to the
    transcript and sent to the start endpoint. *)
Theorem X8_begin_full_resets_guard (p : page) (text : string)
  (Htext : Js.trim text <> "") :
  let q := submit text (startFullPromptMode p) in
  mode (sess q) = ModeFull
  /\ chat (sess q) =
       (chat (sess p) ++ [say agent full_notice; say user (Js.trim text)])%list
  /\ inflight q =
       (inflight p ++ [ReqChat "/api/start_full" (Js.trim text) BranchFull])%list.
Proof.
  intros q. subst q. rewrite submit_unfold by (auto using andb_false_r).
  cbn. split; [reflexivity |]. split; [now rewrite <- app_assoc | reflexivity].
Qed.

Lemma X8_begin_full_resets_guard_witness :
  let used := resolve 1 (Json {| ok := true; reply := Some "done"; p_cwd := None;
                                 entries := None; md := None |})
                (submit "one" (startFullPromptMode boot)) in
  fullUsed (sess used) = true
  /\ inflight (submit "two" (startFullPromptMode used)) =
       (inflight used ++ [ReqChat "/api/start_full" "two" BranchFull])%list.
Proof.
  cbv zeta. split; [reflexivity |].
  exact (proj2 (proj2 (X8_begin_full_resets_guard
    (resolve 1 (Json {| ok := true; reply := Some "done"; p_cwd := None;
                        entries := None; md := None |})
       (submit "one" (startFullPromptMode boot)))
    "two" ltac:(vm_compute; discriminate)))).
Defined.

(** X23: the chat side and the explorer side do not write each other's
    state.  A chat-side event (begin, typing, send, Enter) leaves the
    explorer as it is, an explorer event (refresh, back, forward, up, a
    click on a path) leaves the session as it is; a settled start or chat
    request leaves the explorer as it is, a settled listing or validation
    request leaves the session as it is. *)
Theorem X23_two_sides_are_separate (e : event) (p : page) :
  (session_event e = true -> expl (step e p) = expl p)
  /\ (explorer_event e = true -> sess (step e p) = sess p)
  /\ (forall k r req, e = Resolve k r ->
        nth_error (inflight p) k = Some req ->
        if to_agent req then expl (step e p) = expl p
        else sess (step e p) = sess p).
Proof.
  split; [| split].
  - destruct e; cbn [step session_event]; try discriminate; intros _;
      try reflexivity.
    + destruct (sendDisabled (sess p)); [reflexivity | apply sendMessage_expl].
    + apply sendMessage_expl.
  - destruct e; cbn [step explorer_event]; try discriminate; intros _;
      try reflexivity.
    + destruct (backDisabled (expl p)); [reflexivity | apply (nav_sess GoBack)].
    + destruct (fwdDisabled (expl p)); [reflexivity |].
      apply (nav_sess GoForward).
    + destruct (upDisabled (expl p)); [reflexivity | apply goUp_sess].
  - intros k r req -> Hreq. cbn [step]. unfold resolve. rewrite Hreq.
    destruct req; cbn [to_agent is_start is_chat orb].
    + apply (startConversational_settle_frame r (take_out k p)).
    + apply (sendMessage_settle_expl branch r (take_out k p)).
    + apply (refreshFiles_settle_sess r (take_out k p)).
    + destruct r; reflexivity.
Qed.

Lemma X23_two_sides_are_separate_witness :
  expl (step KeyEnter (set_inputValue "hi" boot)) = expl (set_inputValue "hi" boot)
  /\ sess (step (ClickPath "a") boot) = sess boot.
Proof.
  split.
  - exact (proj1 (X23_two_sides_are_separate KeyEnter
                    (set_inputValue "hi" boot)) eq_refl).
  - exact (proj1 (proj2 (X23_two_sides_are_separate (ClickPath "a") boot))
             eq_refl).
Defined.

(** ** The explorer under every event *)

Lemma current_path_same (p q : page) :
  runsHistory (expl q) = runsHistory (expl p) ->
  historyIndex (expl q) = historyIndex (expl p) ->
  current_path q = current_path p.
Proof. intros Hh Hi. unfold current_path. now rewrite Hh, Hi. Qed.

Lemma same_nav_inv (p q : page) : same_nav p q -> explorer_inv p -> explorer_inv q.
Proof.
  intros [Hh [Hi [Hb [Hf Hu]]]] [Hc [Hr [Bb [Bf Bu]]]].
  unfold explorer_inv, cursor_ok, root_first, buttons_ok.
  rewrite (current_path_same p q Hh Hi), Hh, Hi, Hb, Hf, Hu. auto.
Qed.

Lemma same_expl_nav (p q : page) : expl q = expl p -> same_nav p q.
Proof. intros He. unfold same_nav. rewrite He. auto. Qed.

Lemma refreshFiles_settle_same_nav (r : response) (p : page) :
  same_nav p (refreshFiles_settle r p).
Proof.
  unfold refreshFiles_settle, same_nav. destruct r as [err | data].
  - repeat (split; [reflexivity |]). reflexivity.
  - destruct (negb (ok data)).
    + repeat (split; [reflexivity |]). reflexivity.
    + destruct (entries data) as [[|e es] |];
        repeat (split; [reflexivity |]); reflexivity.
Qed.

Lemma updateNavButtons_buttons_ok (p : page) : buttons_ok (updateNavButtons p).
Proof. unfold buttons_ok. repeat (split; [reflexivity |]). reflexivity. Qed.

Lemma navigateTo_root_first (path : string) (p : page) :
  cursor_ok p -> root_first p -> root_first (navigateTo path p).
Proof.
  intros Hok Hr. unfold root_first in *.
  destruct (navigateTo_history path p Hok) as [Hh _]. rewrite Hh.
  unfold cursor_ok in Hok.
  destruct (runsHistory (expl p)) as [|x h]; [discriminate |].
  replace (Z.to_nat (historyIndex (expl p) + 1))
    with (S (Z.to_nat (historyIndex (expl p)))) by lia.
  exact Hr.
Qed.

Lemma navigateTo_inv (path : string) (p : page) :
  explorer_inv p -> explorer_inv (navigateTo path p).
Proof.
  intros [Hc [Hr _]]. split; [now apply navigateTo_cursor_ok |].
  split; [now apply navigateTo_root_first |].
  apply updateNavButtons_buttons_ok.
Qed.

Lemma goBack_inv (p : page) : explorer_inv p -> explorer_inv (goBack p).
Proof.
  intros Hinv. pose proof Hinv as [Hc [Hr _]].
  split; [now apply goBack_cursor_ok |].
  unfold goBack. destruct (_ >? _); [| apply Hinv].
  split; [exact Hr | apply updateNavButtons_buttons_ok].
Qed.

Lemma goForward_inv (p : page) : explorer_inv p -> explorer_inv (goForward p).
Proof.
  intros Hinv. pose proof Hinv as [Hc [Hr _]].
  split; [now apply goForward_cursor_ok |].
  unfold goForward. destruct (_ <? _); [| apply Hinv].
  split; [exact Hr | apply updateNavButtons_buttons_ok].
Qed.

Lemma step_explorer_inv (e : event) (p : page) :
  explorer_inv p -> explorer_inv (step e p).
Proof.
  intros Hinv. destruct e; cbn [step]; try exact Hinv.
  - destruct (sendDisabled (sess p)); [exact Hinv |].
    apply (same_nav_inv p); [apply same_expl_nav, sendMessage_expl | exact Hinv].
  - apply (same_nav_inv p); [apply same_expl_nav, sendMessage_expl | exact Hinv].
  - destruct (backDisabled (expl p)); [exact Hinv | now apply goBack_inv].
  - destruct (fwdDisabled (expl p)); [exact Hinv | now apply goForward_inv].
  - destruct (upDisabled (expl p)); [exact Hinv |].
    unfold goUp. destruct (Js.falsy _); [exact Hinv | now apply navigateTo_inv].
  - now apply navigateTo_inv.
  - destruct (resolve_cases k r p) as [-> | [req [before [after [_ [_ ->]]]]]];
      [exact Hinv |].
    apply (same_nav_inv p); [| exact Hinv].
    destruct req.
    + apply same_expl_nav, (startConversational_settle_frame r (take_out k p)).
    + apply same_expl_nav, (sendMessage_settle_expl branch r (take_out k p)).
    + apply (refreshFiles_settle_same_nav r (take_out k p)).
    + apply same_expl_nav. destruct r; reflexivity.
Qed.

Lemma boot_explorer_inv : explorer_inv boot.
Proof.
  split; [apply boot_cursor_ok |]. split; [reflexivity |].
  apply updateNavButtons_buttons_ok.
Qed.

Lemma run_explorer_inv (es : list event) : explorer_inv (run es boot).
Proof.
  apply (run_invariant explorer_inv);
    [apply step_explorer_inv | apply boot_explorer_inv].
Qed.

(** X9: entry 0 of the history is always the root: whatever events the
    page handles from boot, truncation on navigation never removes the
    first entry, so going back far enough always ends at the root. *)
Theorem X9_history_starts_at_root (es : list event) :
  nth_error (runsHistory (expl (run es boot))) 0 = Some ""
  /\ runsHistory (expl (run es boot)) <> [].
Proof.
  destruct (run_explorer_inv es) as [_ [Hr _]]. split; [exact Hr |].
  intros Hnil. unfold root_first in Hr. rewrite Hnil in Hr. discriminate.
Qed.

(** X12: in every state the page reaches from boot the three navigation
    buttons say what the history allows: back is disabled exactly at
    cursor 0, forward exactly at the last index, up exactly at the root
    path.  So a disabled button hides nothing: a click on each button
    does what its function does. *)
Theorem X12_nav_buttons_follow_history (es : list event) :
  let p := run es boot in
  buttons_ok p
  /\ step ClickBack p = goBack p
  /\ step ClickForward p = goForward p
  /\ step ClickUp p = goUp p.
Proof.
  intros p. destruct (run_explorer_inv es) as [Hc [_ Hb]]. fold p in Hc, Hb.
  split; [exact Hb |]. destruct Hb as [Bb [Bf Bu]]. unfold cursor_ok in Hc.
  cbn [step]. split; [| split].
  - destruct (backDisabled (expl p)); [| reflexivity].
    symmetry. apply goBack_at_start.
    symmetry in Bb. apply Z.leb_le in Bb. lia.
  - destruct (fwdDisabled (expl p)); [| reflexivity].
    symmetry. apply goForward_at_end.
    symmetry in Bf. apply Z.geb_le in Bf. lia.
  - destruct (upDisabled (expl p)); [| reflexivity].
    unfold goUp. now rewrite <- Bu.
Qed.

(** ** Moving in the history *)

Lemma goBack_moves (p : page) :
  0 < historyIndex (expl p) ->
  runsHistory (expl (goBack p)) = runsHistory (expl p)
  /\ historyIndex (expl (goBack p)) = historyIndex (expl p) - 1.
Proof.
  intros Hpos. unfold goBack.
  destruct (historyIndex (expl p) >? 0) eqn:Hgt; [split; reflexivity |].
  rewrite Z.gtb_ltb in Hgt. apply Z.ltb_ge in Hgt. lia.
Qed.

Lemma goForward_moves (p : page) :
  historyIndex (expl p) < Z.of_nat (length (runsHistory (expl p))) - 1 ->
  runsHistory (expl (goForward p)) = runsHistory (expl p)
  /\ historyIndex (expl (goForward p)) = historyIndex (expl p) + 1.
Proof.
  intros Hlt. unfold goForward.
  destruct (historyIndex (expl p) <? _) eqn:Hb; [split; reflexivity |].
  apply Z.ltb_ge in Hb. lia.
Qed.

Lemma index_before_cursor {A} (h : list A) (i : Z) (x : A) :
  0 <= i < Z.of_nat (length h) ->
  Js.index (firstn (Z.to_nat (i + 1)) h ++ [x]) i = Js.index h i.
Proof.
  intros Hi. unfold Js.index.
  destruct (i <? 0) eqn:Hneg; [reflexivity |].
  rewrite nth_error_app1 by (rewrite length_firstn; lia).
  rewrite nth_error_firstn.
  destruct (Z.to_nat i <? Z.to_nat (i + 1))%nat eqn:Hlt; [reflexivity |].
  apply Nat.ltb_ge in Hlt. lia.
Qed.

(** X10: back and forward undo each other.  With the cursor after the
    first entry, [goBack] followed by [goForward] restores the cursor and
    the current path and leaves the history as it was; with the cursor
    before the last entry, so does [goForward] followed by [goBack]. *)
Theorem X10_back_and_forward_are_inverse (p : page) (Hok : cursor_ok p) :
  (0 < historyIndex (expl p) ->
     runsHistory (expl (goForward (goBack p))) = runsHistory (expl p)
     /\ historyIndex (expl (goForward (goBack p))) = historyIndex (expl p)
     /\ current_path (goForward (goBack p)) = current_path p)
  /\ (historyIndex (expl p) < Z.of_nat (length (runsHistory (expl p))) - 1 ->
     runsHistory (expl (goBack (goForward p))) = runsHistory (expl p)
     /\ historyIndex (expl (goBack (goForward p))) = historyIndex (expl p)
     /\ current_path (goBack (goForward p)) = current_path p).
Proof.
  unfold cursor_ok in Hok. split.
  - intros Hpos. destruct (goBack_moves p Hpos) as [Hh Hi].
    destruct (goForward_moves (goBack p)) as [Hh' Hi'];
      [rewrite Hh, Hi; lia |].
    assert (H1 : runsHistory (expl (goForward (goBack p))) = runsHistory (expl p))
      by congruence.
    assert (H2 : historyIndex (expl (goForward (goBack p))) = historyIndex (expl p))
      by lia.
    split; [exact H1 |]. split; [exact H2 |].
    now apply current_path_same.
  - intros Hlt. destruct (goForward_moves p Hlt) as [Hh Hi].
    destruct (goBack_moves (goForward p)) as [Hh' Hi']; [rewrite Hi; lia |].
    assert (H1 : runsHistory (expl (goBack (goForward p))) = runsHistory (expl p))
      by congruence.
    assert (H2 : historyIndex (expl (goBack (goForward p))) = historyIndex (expl p))
      by lia.
    split; [exact H1 |]. split; [exact H2 |].
    now apply current_path_same.
Qed.

Lemma X10_back_and_forward_are_inverse_witness :
  let p := run_nav [NavigateTo "a"; NavigateTo "a/b"] boot in
  current_path (goForward (goBack p)) = "a/b".
Proof.
  cbv zeta.
  pose proof (proj1 (X10_back_and_forward_are_inverse
    (run_nav [NavigateTo "a"; NavigateTo "a/b"] boot)
    ltac:(unfold cursor_ok; vm_compute; split; [discriminate | reflexivity]))
    ltac:(vm_compute; reflexivity)) as [_ [_ Hc]].
  exact Hc.
Defined.

(** X11: a navigation can be undone and redone: after [navigateTo(P)]
    the current path is P; [goBack] then returns to the cursor and the
    path the page was on, keeping P ahead in the history, and
    [goForward] from there leads to P again. *)
Theorem X11_navigation_can_be_undone (p : page) (P : string)
  (Hok : cursor_ok p) :
  let q := navigateTo P p in
  current_path q = P
  /\ historyIndex (expl (goBack q)) = historyIndex (expl p)
  /\ current_path (goBack q) = current_path p
  /\ runsHistory (expl (goBack q)) = runsHistory (expl q)
  /\ current_path (goForward (goBack q)) = P.
Proof.
  intros q.
  destruct (navigateTo_history P p Hok) as [Hh Hi]. fold q in Hh, Hi.
  pose proof (navigateTo_length P p Hok) as Hlen. fold q in Hlen.
  assert (Hq : cursor_ok q) by (apply navigateTo_cursor_ok, Hok).
  unfold cursor_ok in Hok.
  assert (Hcur : current_path q = P).
  { unfold current_path. rewrite Hh, Hi.
    set (h := firstn _ _).
    assert (Hl : historyIndex (expl p) + 1 = Z.of_nat (length h))
      by (subst h; rewrite length_firstn; lia).
    rewrite Hl, index_last. apply or_str_empty. }
  destruct (goBack_moves q) as [Bh Bi]; [lia |].
  split; [exact Hcur |]. split; [lia |]. split; [| split; [exact Bh |]].
  - unfold current_path. rewrite Bh, Bi, Hh, Hi.
    replace (historyIndex (expl p) + 1 - 1) with (historyIndex (expl p)) by lia.
    now rewrite index_before_cursor.
  - destruct (goForward_moves (goBack q)) as [Fh Fi]; [rewrite Bh, Bi; lia |].
    rewrite <- Hcur. apply current_path_same; [congruence | lia].
Qed.

Lemma X11_navigation_can_be_undone_witness :
  current_path (goBack (navigateTo "a" boot)) = ""
  /\ current_path (goForward (goBack (navigateTo "a" boot))) = "a".
Proof.
  pose proof (X11_navigation_can_be_undone boot "a" boot_cursor_ok)
    as [_ [_ [Hb [_ Hf]]]].
  split; [exact Hb | exact Hf].
Defined.

(** X13: every move in the history fetches once: each of [navigateTo],
    [goBack], [goForward] and [goUp] either returns the page untouched or
    sends exactly one request, the listing of the path then at the
    cursor; [navigateTo] always sends it, and for the path it was
    given. *)
Theorem X13_one_fetch_per_move (p : page) :
  (forall o, nav o p = p
     \/ inflight (nav o p) =
          (inflight p ++ [ReqList (current_path (nav o p))])%list)
  /\ (goUp p = p
      \/ inflight (goUp p) =
           (inflight p ++ [ReqList (current_path (goUp p))])%list)
  /\ (forall path, cursor_ok p ->
        inflight (navigateTo path p) = (inflight p ++ [ReqList path])%list).
Proof.
  split; [| split].
  - intros [path | |]; cbn [nav].
    + right. reflexivity.
    + unfold goBack. destruct (_ >? _); [right; reflexivity | now left].
    + unfold goForward. destruct (_ <? _); [right; reflexivity | now left].
  - unfold goUp. destruct (Js.falsy _); [now left | right; reflexivity].
  - intros path Hok. now apply navigateTo_fetch.
Qed.

Lemma X13_one_fetch_per_move_witness :
  inflight (navigateTo "a" boot) = [ReqList ""; ReqList "a"].
Proof.
  exact (proj2 (proj2 (X13_one_fetch_per_move boot)) "a" boot_cursor_ok).
Defined.

(** X14: an ok listing with entries is shown in the order the backend
    sent it, one row per entry, none added, dropped or moved; a row whose
    entry is of type dir opens the entry's path and shows its name with a
    slash, every other row downloads the entry's path and shows its name
    unchanged. *)
Theorem X14_rows_follow_entries (p : page) (k : nat) (P : string)
  (data : payload) (es : list DirEntry)
  (Hreq : nth_error (inflight p) k = Some (ReqList P))
  (Hok : ok data = true)
  (Hes : entries data = Some es)
  (Hne : es <> []) :
  exists rows,
    files (expl (resolve k (Json data) p)) = FilesRows rows
    /\ map row_entry rows = es
    /\ Forall presents rows.
Proof.
  exists (map render_row es).
  unfold resolve. rewrite Hreq.
  unfold refreshFiles_settle. rewrite Hok, Hes. cbn [negb].
  destruct es as [|e es']; [congruence |].
  split; [reflexivity |]. split.
  - rewrite map_map. rewrite <- (map_id (e :: es')) at 2.
    apply map_ext. intros x. unfold render_row.
    destruct (type x =? "dir")%string; reflexivity.
  - apply Forall_forall. intros row Hin.
    apply in_map_iff in Hin as [x [<- _]].
    unfold presents, render_row.
    destruct (type x =? "dir")%string eqn:Ht; cbn.
    + left. apply String.eqb_eq in Ht. auto.
    + right. apply String.eqb_neq in Ht. auto.
Qed.

Lemma X14_rows_follow_entries_witness :
  exists rows,
    files (expl (resolve 0 (listing_reply "" [a_file; a_folder]) boot))
      = FilesRows rows
    /\ map row_entry rows = [a_file; a_folder]
    /\ Forall presents rows.
Proof.
  exact (X14_rows_follow_entries boot 0 ""
    {| ok := true; reply := None; p_cwd := Some "";
       entries := Some [a_file; a_folder]; md := None |}
    [a_file; a_folder] eq_refl eq_refl eq_refl ltac:(discriminate)).
Defined.

(** ** Splitting and joining paths *)

Lemma split_nonempty (s : string) : Js.split "/" s <> [].
Proof.
  destruct s as [|c r]; cbn; [discriminate |].
  destruct (Ascii.eqb c "/"); [discriminate |].
  destruct (Js.split "/" r); discriminate.
Qed.

Lemma join_split (s : string) : Js.join "/" (Js.split "/" s) = s.
Proof.
  unfold Js.join. induction s as [|c r IH]; [reflexivity |].
  cbn [Js.split]. pose proof (split_nonempty r) as Hne.
  destruct (Ascii.eqb c "/") eqn:Hc.
  - apply Ascii.eqb_eq in Hc. subst c.
    destruct (Js.split "/" r) as [|h t]; [congruence |].
    change (String.concat "/" ("" :: h :: t))
      with ("" ++ "/" ++ String.concat "/" (h :: t))%string.
    now rewrite IH.
  - destruct (Js.split "/" r) as [|h t]; [congruence |].
    destruct t as [|y t'].
    + cbn in IH. cbn. now rewrite IH.
    + change (String.concat "/" (String c h :: y :: t'))
        with (String c (h ++ "/" ++ String.concat "/" (y :: t')))%string.
      change (String.concat "/" (h :: y :: t'))
        with (h ++ "/" ++ String.concat "/" (y :: t'))%string in IH.
      now rewrite IH.
Qed.

Lemma split_no_slash (s : string) :
  Forall (fun part => no_slash part = true) (Js.split "/" s).
Proof.
  induction s as [|c r IH]; [repeat constructor |].
  cbn [Js.split]. pose proof (split_nonempty r) as Hne.
  destruct (Ascii.eqb c "/") eqn:Hc.
  - constructor; [reflexivity | exact IH].
  - destruct (Js.split "/" r) as [|h t]; [congruence |].
    inversion IH as [|? ? Hh Ht]; subst.
    constructor; [| exact Ht].
    unfold no_slash in *. cbn [string_forallb]. now rewrite Hc, Hh.
Qed.

(** X21: the parent that [goUp] computes is the path cut at its last
    slash: a path with no slash has the empty parent, the root; any other
    path is its parent, a slash, and a last part without slash. *)
Theorem X21_parent_cuts_at_last_slash (cur : string) :
  exists last,
    no_slash last = true
    /\ ((cur = last /\ parent_of cur = "")
        \/ cur = (parent_of cur ++ "/" ++ last)%string).
Proof.
  destruct (exists_last (split_nonempty cur)) as [l [x Hl]].
  pose proof (split_no_slash cur) as Hparts. rewrite Hl in Hparts.
  apply Forall_app in Hparts as [_ Hx]. inversion Hx as [|? ? Hlast _]; subst.
  assert (Hp : parent_of cur = Js.join "/" l).
  { unfold parent_of. now rewrite slice0_drop_last, Hl, removelast_last. }
  exists x. split; [exact Hlast |].
  pose proof (join_split cur) as Hj. rewrite Hl in Hj.
  destruct l as [|y l'].
  - left. split; [now rewrite <- Hj | now rewrite Hp].
  - right. rewrite Hp, <- Hj at 1. apply join_snoc. discriminate.
Qed.

(** ** More on the breadcrumb *)

Lemma labels_loop (parts : list string) (acc : string) :
  written_labels (crumbs_loop parts acc) = filter nonempty parts
  /\ separators (crumbs_loop parts acc) = length (filter nonempty parts)
  /\ length (crumbs_loop parts acc) = (2 * length (filter nonempty parts))%nat.
Proof.
  revert acc. induction parts as [|p rest IH]; intros acc;
    [repeat split |].
  cbn [crumbs_loop filter]. change (nonempty p) with (negb (Js.falsy p)).
  destruct (Js.falsy p); cbn [negb]; [apply IH |].
  set (acc' := if Js.falsy acc then p else _).
  destruct (IH acc') as [Hl [Hs Hn]].
  cbn [written_labels separators length]. rewrite Hl, Hs, Hn.
  split; [reflexivity |]. split; [reflexivity | lia].
Qed.


(** ** [escapeHtml] *)

Lemma string_forallb_app (f : ascii -> bool) (a b : string) :
  string_forallb f (a ++ b) = (string_forallb f a && string_forallb f b)%bool.
Proof.
  induction a as [|c a IH]; [reflexivity |].
  cbn. now rewrite IH, andb_assoc.
Qed.

Lemma escape_char_safe (c : ascii) :
  string_forallb (fun x => negb (markup_char x)) (Js.escape_char c) = true.
Proof.
  destruct c as [[] [] [] [] [] [] [] []]; reflexivity.
Qed.

(** The five entities and the characters they stand for; every other
    character stands for itself and is not the ampersand. *)
Lemma escape_char_class (c : ascii) :
  (c = "&"%char /\ Js.escape_char c = "&amp;")
  \/ (c = "<"%char /\ Js.escape_char c = "&lt;")
  \/ (c = ">"%char /\ Js.escape_char c = "&gt;")
  \/ (c = ascii_of_nat 34 /\ Js.escape_char c = "&quot;")
  \/ (c = "'"%char /\ Js.escape_char c = "&#39;")
  \/ (c <> "&"%char /\ Js.escape_char c = String c "").
Proof.
  destruct c as [[] [] [] [] [] [] [] []];
    first [ left; split; reflexivity
          | right; left; split; reflexivity
          | right; right; left; split; reflexivity
          | right; right; right; left; split; reflexivity
          | right; right; right; right; left; split; reflexivity
          | right; right; right; right; right; split;
            [discriminate | reflexivity] ].
Qed.

Lemma escape_char_plain (c : ascii) :
  escaped_char c = false -> Js.escape_char c = String c "".
Proof.
  destruct c as [[] [] [] [] [] [] [] []]; cbn; intros H;
    first [reflexivity | discriminate].
Qed.

Lemma escapeHtml_cons (c : ascii) (r : string) :
  Js.escapeHtml (String c r) = (Js.escape_char c ++ Js.escapeHtml r)%string.
Proof. reflexivity. Qed.

Lemma escapeHtml_app (a b : string) :
  Js.escapeHtml (a ++ b) = (Js.escapeHtml a ++ Js.escapeHtml b)%string.
Proof.
  induction a as [|c a IH]; [reflexivity |].
  cbn [append]. now rewrite !escapeHtml_cons, IH, append_assoc.
Qed.

Lemma escapeHtml_safe (s : string) :
  string_forallb (fun x => negb (markup_char x)) (Js.escapeHtml s) = true.
Proof.
  induction s as [|c r IH]; [reflexivity |].
  now rewrite escapeHtml_cons, string_forallb_app, escape_char_safe, IH.
Qed.

(** X18: the output of [escapeHtml] has no character that opens or
    closes markup or an attribute value: no angle bracket and no quote of
    either kind.  So the error line of the file table shows the text of
    an error without letting it add markup. *)
Theorem X18_escapeHtml_leaves_no_markup (s : string) :
  string_forallb (fun c => negb (markup_char c)) (Js.escapeHtml s) = true
  /\ forall p k P,
       nth_error (inflight p) k = Some (ReqList P) ->
       exists shown,
         files (expl (resolve k (Threw s) p))
           = FilesMuted ("Failed to load. " ++ shown)
         /\ string_forallb (fun c => negb (markup_char c)) shown = true.
Proof.
  split; [apply escapeHtml_safe |].
  intros p k P Hreq. exists (Js.escapeHtml s).
  split; [| apply escapeHtml_safe].
  unfold resolve. rewrite Hreq. reflexivity.
Qed.

Lemma X18_escapeHtml_leaves_no_markup_witness :
  exists shown,
    files (expl (resolve 0 (Threw "<b>") boot))
      = FilesMuted ("Failed to load. " ++ shown)
    /\ string_forallb (fun c => negb (markup_char c)) shown = true.
Proof.
  exact (proj2 (X18_escapeHtml_leaves_no_markup "<b>") boot 0%nat "" eq_refl).
Defined.

(** X19: [escapeHtml] loses nothing: two different texts never escape to
    the same text. *)
Theorem X19_escapeHtml_injective (a b : string)
  (Heq : Js.escapeHtml a = Js.escapeHtml b) :
  a = b.
Proof.
  revert b Heq. induction a as [|c a IH]; intros [|d b] Heq.
  - reflexivity.
  - exfalso. rewrite escapeHtml_cons in Heq.
    destruct (escape_char_class d) as [[_ E]|[[_ E]|[[_ E]|[[_ E]|[[_ E]|[_ E]]]]]];
      rewrite E in Heq; discriminate.
  - exfalso. rewrite escapeHtml_cons in Heq.
    destruct (escape_char_class c) as [[_ E]|[[_ E]|[[_ E]|[[_ E]|[[_ E]|[_ E]]]]]];
      rewrite E in Heq; discriminate.
  - rewrite !escapeHtml_cons in Heq.
    assert (Hboth : c = d /\ Js.escapeHtml a = Js.escapeHtml b).
    { destruct (escape_char_class c)
        as [[C E]|[[C E]|[[C E]|[[C E]|[[C E]|[C E]]]]]];
      destruct (escape_char_class d)
        as [[D F]|[[D F]|[[D F]|[[D F]|[[D F]|[D F]]]]]];
      rewrite E, F in Heq; cbn [append] in Heq;
      try discriminate;
      try (injection Heq as Hrest; split; [congruence | exact Hrest]);
      try (injection Heq as Hhead Hrest;
           first [split; [exact Hhead | exact Hrest] | congruence]). }
    destruct Hboth as [-> Hrest]. f_equal. now apply IH.
Qed.

Lemma X19_escapeHtml_injective_witness :
  Js.escapeHtml "a<b" = "a&lt;b" /\ "a<b" = "a<b".
Proof.
  split; [reflexivity |].
  exact (X19_escapeHtml_injective "a<b" "a<b" eq_refl).
Defined.

(** X20: [escapeHtml] works character by character: the escape of a
    concatenation is the concatenation of the escapes, and a text
    without ampersand, angle bracket or quote is returned unchanged. *)
Theorem X20_escapeHtml_by_character (a b : string) :
  Js.escapeHtml (a ++ b) = (Js.escapeHtml a ++ Js.escapeHtml b)%string
  /\ (string_forallb (fun c => negb (escaped_char c)) a = true ->
      Js.escapeHtml a = a).
Proof.
  split; [apply escapeHtml_app |].
  induction a as [|c a IH]; [reflexivity |].
  cbn [string_forallb]. rewrite escapeHtml_cons. intros H.
  apply andb_true_iff in H as [Hc Ha].
  apply negb_true_iff in Hc.
  rewrite (escape_char_plain c Hc), (IH Ha). reflexivity.
Qed.

Lemma X20_escapeHtml_by_character_witness :
  Js.escapeHtml "Error: List failed" = "Error: List failed".
Proof.
  exact (proj2 (X20_escapeHtml_by_character "Error: List failed" "") eq_refl).
Defined.

(** ** File sizes *)

Lemma pow1024_step (k : nat) :
  (inject_Z (1024 ^ Z.of_nat (S k)) == 1024 * inject_Z (1024 ^ Z.of_nat k))%Q.
Proof.
  rewrite Nat2Z.inj_succ, Z.pow_succ_r by lia.
  now rewrite inject_Z_mult.
Qed.

Lemma pow1024_pos (k : nat) : (0 < inject_Z (1024 ^ Z.of_nat k))%Q.
Proof.
  change 0%Q with (inject_Z 0). rewrite <- Zlt_Qlt.
  apply Z.pow_pos_nonneg; lia.
Qed.

(** With enough rounds the loop ends on its own condition: the value is
    the input divided by 1024 once per unit passed, it is below 1024
    unless the last unit is reached, and at least 1 past the first. *)
Lemma formatSize_loop_spec (fuel : nat) :
  forall (n : Q) (i : nat),
    (4 <= i + fuel)%nat -> (i <= 4)%nat -> ((0 < i)%nat -> (1 <= n)%Q) ->
    exists n' k,
      formatSize_loop fuel n i = (n', (i + k)%nat)
      /\ (i + k <= 4)%nat
      /\ (n' * inject_Z (1024 ^ Z.of_nat k) == n)%Q
      /\ ((i + k < 4)%nat -> (n' < 1024)%Q)
      /\ ((0 < i + k)%nat -> (1 <= n')%Q).
Proof.
  induction fuel as [|fuel IH]; intros n i Hfuel Hi Hlow.
  - exists n, 0%nat. cbn [formatSize_loop]. rewrite Nat.add_0_r.
    split; [reflexivity |]. split; [exact Hi |].
    split; [cbn; ring |]. split; [lia | exact Hlow].
  - cbn [formatSize_loop].
    destruct (Qle_bool 1024 n) eqn:Hbig;
      [destruct (i <? length units - 1)%nat eqn:Hroom |]; cbn [andb].
    + apply Qle_bool_iff in Hbig. apply Nat.ltb_lt in Hroom. cbn in Hroom.
      destruct (IH (n / 1024)%Q (S i)) as [n' [k [Hrun [Hk [Hval [Hup Hdown]]]]]];
        [lia | lia | |].
      { intros _. apply Qle_shift_div_l; [reflexivity | lra]. }
      exists n', (S k). replace (i + S k)%nat with (S i + k)%nat by lia.
      split; [exact Hrun |]. split; [exact Hk |].
      split; [| split; [exact Hup | exact Hdown]].
      rewrite pow1024_step.
      assert (Hdiv : (n / 1024 * 1024 == n)%Q) by field.
      rewrite <- Hdiv, <- Hval. ring.
    + apply Nat.ltb_ge in Hroom. cbn in Hroom.
      exists n, 0%nat. rewrite Nat.add_0_r.
      split; [reflexivity |]. split; [exact Hi |].
      split; [cbn; ring |]. split; [lia | exact Hlow].
    + exists n, 0%nat. rewrite Nat.add_0_r.
      split; [reflexivity |]. split; [exact Hi |].
      split; [cbn; ring |]. split; [| exact Hlow].
      intros _. apply Qnot_le_lt. intros Hle.
      apply Qle_bool_iff in Hle. congruence.
Qed.

(** X24: [formatSize] picks the largest unit that does not exceed the
    size, up to TB: for a size of b bytes, a whole number from 0 to
    below 2^53, the text ends in a space and the unit of index i, where
    1024^i <= b unless i is 0, and b < 1024^(i+1) unless i is 4; the
    number before it is b / 1024^i, with one decimal when it is below 10
    and the unit is not B. *)
Theorem X24_formatSize_unit (b : Z) (Hb : 0 <= b < 2 ^ 53) :
  exists (n : Q) (i : nat),
    (i <= 4)%nat
    /\ (n * inject_Z (1024 ^ Z.of_nat i) == inject_Z b)%Q
    /\ ((0 < i)%nat -> 1024 ^ Z.of_nat i <= b)
    /\ ((i < 4)%nat -> b < 1024 ^ Z.of_nat (S i))
    /\ formatSize (Some b) =
         toFixed n (if (negb (Qle_bool 10 n) && (0 <? i)%nat)%bool
                    then 1%nat else 0%nat)
           ++ " " ++ nth i units "".
Proof.
  destruct (formatSize_loop_spec (length units) (inject_Z b) 0)
    as [n [i [Hrun [Hi [Hval [Hup Hdown]]]]]]; [cbn; lia | lia | lia |].
  cbn [Nat.add] in *. exists n, i.
  pose proof (pow1024_pos i) as Hpos.
  split; [exact Hi |]. split; [exact Hval |]. split; [| split].
  - intros Hi0. specialize (Hdown Hi0).
    rewrite Zle_Qle, <- Hval.
    set (s := inject_Z (1024 ^ Z.of_nat i)) in *. nra.
  - intros Hi4. specialize (Hup Hi4).
    rewrite Zlt_Qlt, pow1024_step, <- Hval.
    set (s := inject_Z (1024 ^ Z.of_nat i)) in *. nra.
  - unfold formatSize. rewrite Hrun. reflexivity.
Qed.

Lemma X24_formatSize_unit_witness :
  exists (n : Q) (i : nat),
    (n * inject_Z (1024 ^ Z.of_nat i) == inject_Z 1536)%Q
    /\ ((0 < i)%nat -> 1024 ^ Z.of_nat i <= 1536)
    /\ ((i < 4)%nat -> 1536 < 1024 ^ Z.of_nat (S i)).
Proof.
  destruct (X24_formatSize_unit 1536 ltac:(lia)) as [n [i [_ [Hv [Hl [Hu _]]]]]].
  exists n, i. split; [exact Hv |]. split; [exact Hl | exact Hu].
Defined.

Lemma Qfloor_half_up (b : Z) : Qfloor (inject_Z b * inject_Z 1 + (1 # 2)) = b.
Proof.
  unfold Qfloor, Qplus, Qmult, inject_Z. cbn [Qnum Qden Pos.mul].
  replace (b * 1 * 2 + 1 * 1) with (b * 2 + 1) by lia.
  rewrite Z.div_add_l by lia. cbn. lia.
Qed.

(** X25: a missing size gives the empty text, and a size of fewer than
    1024 bytes is shown as it is, in decimal, followed by the unit B. *)
Theorem X25_formatSize_bytes (b : Z) (Hb : 0 <= b < 1024) :
  formatSize None = ""
  /\ formatSize (Some b) = digits_of b ++ " B".
Proof.
  split; [reflexivity |].
  assert (Hsmall : Qle_bool 1024 (inject_Z b) = false).
  { destruct (Qle_bool 1024 (inject_Z b)) eqn:Hle; [| reflexivity].
    apply Qle_bool_iff in Hle. change 1024%Q with (inject_Z 1024) in Hle.
    rewrite <- Zle_Qle in Hle. lia. }
  assert (Hnonneg : Qle_bool 0 (inject_Z b) = true).
  { apply Qle_bool_iff. change 0%Q with (inject_Z 0). rewrite <- Zle_Qle. lia. }
  unfold formatSize. cbn [formatSize_loop length units]. rewrite Hsmall.
  cbn [andb Nat.ltb Nat.leb]. rewrite andb_false_r.
  unfold toFixed. rewrite Hnonneg. unfold toFixed_abs.
  cbn [Z.of_nat Z.pow nth]. change (10 ^ 0) with 1.
  now rewrite Qfloor_half_up.
Qed.

Lemma X25_formatSize_bytes_witness : formatSize (Some 1023) = "1023 B".
Proof.
  exact (proj2 (X25_formatSize_bytes 1023 ltac:(lia))).
Defined.

(** Rounding can show a number of 1024, and a tie goes up. *)
Example formatSize_samples :
  formatSize (Some 1536) = "1.5 KB"
  /\ formatSize (Some 1280) = "1.3 KB"
  /\ formatSize (Some 10240) = "10 KB"
  /\ formatSize (Some 1048575) = "1024 KB"
  /\ formatSize (Some (5 * 1024 ^ 5)) = "5120 TB".
Proof. vm_compute. repeat (split; [reflexivity |]). reflexivity. Qed.

(** ** The validation drawer *)

Lemma drawer_step_consistent (e : drawer_event) (w : drawer_state * page) :
  drawer_consistent (fst w) -> drawer_consistent (fst (drawer_step e w)).
Proof.
  intros Hc.
  destruct e as [| | | | | key]; cbn [drawer_step];
    try (split; [reflexivity |]; split; reflexivity).
  - exact Hc.
  - destruct (key =? "Escape")%string; [| exact Hc].
    split; [reflexivity |]; split; reflexivity.
Qed.

Lemma drawer_step_page (e : drawer_event) (w : drawer_state * page) :
  sess (snd (drawer_step e w)) = sess (snd w)
  /\ expl (snd (drawer_step e w)) = expl (snd w)
  /\ inflight (snd (drawer_step e w)) =
       (inflight (snd w) ++ if fetches_report e then [ReqValidation] else [])%list.
Proof.
  destruct e as [| | | | | key]; cbn [drawer_step fetches_report];
    try (split; [reflexivity |]; split; [reflexivity |];
         first [reflexivity | now rewrite app_nil_r]).
  destruct (key =? "Escape")%string;
    (split; [reflexivity |]; split; [reflexivity |]; now rewrite app_nil_r).
Qed.

(** X22: the drawer and its backdrop are never out of step: over any
    sequence of clicks and key presses they are open or closed together
    and their aria-hidden attributes say so; these events never touch
    the chat or the explorer, and all they send are fetches of the
    validation report, one per opening or refresh.  Escape closes the
    drawer, every other key leaves it as it is. *)
Theorem X22_drawer_stays_consistent (es : list drawer_event)
  (w : drawer_state * page) (Hc : drawer_consistent (fst w)) :
  let v := drawer_run es w in
  drawer_consistent (fst v)
  /\ sess (snd v) = sess (snd w)
  /\ expl (snd v) = expl (snd w)
  /\ inflight (snd v) =
       (inflight (snd w)
          ++ repeat ReqValidation (length (filter fetches_report es)))%list
  /\ drawerOpen (fst (drawer_step (KeyDown "Escape") v)) = false
  /\ (forall key, key <> "Escape" -> drawer_step (KeyDown key) v = v).
Proof.
  cbv zeta. revert w Hc. induction es as [|e es IH]; intros w Hc.
  - cbn. split; [exact Hc |]. split; [reflexivity |]. split; [reflexivity |].
    split; [now rewrite app_nil_r |]. split; [reflexivity |].
    intros key Hk. apply String.eqb_neq in Hk. now rewrite Hk.
  - cbn [drawer_run fold_left].
    destruct (IH (drawer_step e w) (drawer_step_consistent e w Hc))
      as [H1 [H2 [H3 [H4 [H5 H6]]]]].
    destruct (drawer_step_page e w) as [P1 [P2 P3]].
    unfold drawer_run in *.
    split; [exact H1 |]. split; [congruence |]. split; [congruence |].
    split; [| split; [exact H5 | exact H6]].
    rewrite H4, P3. cbn [filter].
    destruct (fetches_report e); cbn [length repeat];
      now rewrite <- app_assoc.
Qed.

Lemma X22_drawer_stays_consistent_witness :
  let closed := {| drawerOpen := false; backdropOpen := false;
                   drawerAriaHidden := true; backdropAriaHidden := true |} in
  let v := drawer_run [ClickValidationTab; KeyDown "Escape"] (closed, boot) in
  drawer_consistent (fst v)
  /\ inflight (snd v) = [ReqList ""; ReqValidation].
Proof.
  cbv zeta.
  pose proof (X22_drawer_stays_consistent [ClickValidationTab; KeyDown "Escape"]
    ({| drawerOpen := false; backdropOpen := false;
        drawerAriaHidden := true; backdropAriaHidden := true |}, boot)
    ltac:(repeat split)) as [Hc [_ [_ [Hi _]]]].
  split; [exact Hc | exact Hi].
Defined.

(** ** Late replies in Full Prompt mode *)

(** X6: the reply to a request of the full branch uses up the one-shot
    guard whenever it arrives: if the page is in Full Prompt mode when a
    reply to such a request settles, also one sent before the mode was
    begun again, [fullUsed] becomes true and every submit after it is
    ignored. *)
Theorem X6_late_full_reply_uses_guard (p : page) (k : nat)
  (endpoint message : string) (data : payload)
  (Hreq : nth_error (inflight p) k = Some (ReqChat endpoint message BranchFull))
  (Hmode : mode (sess p) = ModeFull) :
  let q := resolve k (Json data) p in
  fullUsed (sess q) = true
  /\ forall text, submit text q = set_inputValue text q.
Proof.
  intros q.
  assert (Hq : q = sendMessage_settle BranchFull (Json data) (take_out k p))
    by (subst q; unfold resolve; now rewrite Hreq).
  assert (Hu : fullUsed (sess q) = true)
    by (rewrite Hq; apply sendMessage_settle_fullUsed).
  split; [exact Hu |].
  intros text. apply submit_consumed; [| exact Hu].
  rewrite Hq, sendMessage_settle_mode. exact Hmode.
Qed.

Lemma X6_late_full_reply_uses_guard_witness :
  let p := startFullPromptMode (submit "one" (startFullPromptMode boot)) in
  let q := resolve 1 (Json {| ok := true; reply := Some "done"; p_cwd := None;
                              entries := None; md := None |}) p in
  fullUsed (sess p) = false
  /\ chat (sess q) =
       [say agent full_notice; say user "one"; say agent full_notice;
        say agent "done"]
  /\ submit "two" q = set_inputValue "two" q.
Proof.
  cbv zeta. split; [reflexivity |]. split; [reflexivity |].
  exact (proj2 (X6_late_full_reply_uses_guard
    (startFullPromptMode (submit "one" (startFullPromptMode boot))) 1
    "/api/start_full" "one"
    {| ok := true; reply := Some "done"; p_cwd := None;
       entries := None; md := None |} eq_refl eq_refl) "two").
Defined.

(** ** Going up to the root *)

Lemma split_plain (x : string) : no_slash x = true -> Js.split "/" x = [x].
Proof.
  induction x as [|c r IH]; [reflexivity |].
  unfold no_slash. cbn [string_forallb Js.split]. intros H.
  apply andb_true_iff in H as [Hc Hr]. apply negb_true_iff in Hc.
  rewrite Hc. fold (no_slash r) in Hr. now rewrite (IH Hr).
Qed.

Lemma split_after_plain (x s : string) :
  no_slash x = true ->
  Js.split "/" (x ++ "/" ++ s) = x :: Js.split "/" s.
Proof.
  induction x as [|c r IH]; [reflexivity |].
  unfold no_slash. cbn [string_forallb append Js.split]. intros H.
  apply andb_true_iff in H as [Hc Hr]. apply negb_true_iff in Hc.
  rewrite Hc. fold (no_slash r) in Hr. specialize (IH Hr).
  cbn [append] in IH. now rewrite IH.
Qed.

Lemma split_join (l : list string) :
  l <> [] -> Forall (fun part => no_slash part = true) l ->
  Js.split "/" (Js.join "/" l) = l.
Proof.
  unfold Js.join.
  induction l as [|x [|y r] IH]; intros Hne Hall; [congruence | |].
  - inversion Hall; subst. now apply split_plain.
  - inversion Hall as [|? ? Hx Hrest]; subst.
    change (String.concat "/" (x :: y :: r))
      with (x ++ "/" ++ String.concat "/" (y :: r))%string.
    rewrite (split_after_plain _ _ Hx), IH by (assumption || discriminate).
    reflexivity.
Qed.

Lemma parent_split (cur : string) (l : list string) (x : string) :
  Js.split "/" cur = (l ++ [x])%list ->
  parent_of cur = Js.join "/" l
  /\ (l <> [] -> Js.split "/" (parent_of cur) = l).
Proof.
  intros Hl.
  assert (Hp : parent_of cur = Js.join "/" l)
    by (unfold parent_of; now rewrite slice0_drop_last, Hl, removelast_last).
  split; [exact Hp |]. intros Hne. rewrite Hp. apply split_join; [exact Hne |].
  pose proof (split_no_slash cur) as Hall. rewrite Hl in Hall.
  now apply Forall_app in Hall as [Hall _].
Qed.

Lemma up_reaches_root (n : nat) :
  forall cur, length (Js.split "/" cur) = S n ->
              Nat.iter (S n) parent_of cur = "".
Proof.
  induction n as [|n IH]; intros cur Hlen;
    destruct (exists_last (split_nonempty cur)) as [l [x Hl]];
    destruct (parent_split cur l x Hl) as [Hp Hs];
    rewrite Hl, length_app in Hlen; cbn [length] in Hlen.
  - destruct l; [| cbn [length] in Hlen; lia]. cbn. now rewrite Hp.
  - rewrite Nat.iter_succ_r. apply IH.
    rewrite Hs by (destruct l; [cbn [length] in Hlen; lia | discriminate]).
    lia.
Qed.

(** X26: going up always arrives at the root: applying the parent
    computation of [goUp] as many times as the path has parts between
    slashes gives the empty path, where [goUp] does nothing more; each
    step before takes one part away. *)
Theorem X26_up_reaches_the_root (cur : string) :
  Nat.iter (length (Js.split "/" cur)) parent_of cur = ""
  /\ (forall l x, Js.split "/" cur = (l ++ [x])%list -> l <> [] ->
        Js.split "/" (parent_of cur) = l)
  /\ (forall p, current_path p = "" -> goUp p = p).
Proof.
  split; [| split].
  - destruct (length (Js.split "/" cur)) as [|n] eqn:Hn.
    + apply length_zero_iff_nil in Hn. now apply split_nonempty in Hn.
    + now apply up_reaches_root.
  - intros l x Hl Hne. now apply (parent_split cur l x Hl).
  - intros p Hroot. unfold goUp. now rewrite Hroot.
Qed.

Lemma X26_up_reaches_the_root_witness :
  Js.split "/" (parent_of "a/b/c") = ["a"; "b"]
  /\ parent_of (parent_of (parent_of "a/b/c")) = "".
Proof.
  split.
  - exact (proj1 (proj2 (X26_up_reaches_the_root "a/b/c")) ["a"; "b"] "c"
             eq_refl ltac:(discriminate)).
  - exact (proj1 (X26_up_reaches_the_root "a/b/c")).
Defined.

(** ** The spans the browser reads from the breadcrumb markup *)

Lemma string_forallb_impl (f g : ascii -> bool) (s : string) :
  (forall c, f c = true -> g c = true) ->
  string_forallb f s = true -> string_forallb g s = true.
Proof.
  intros Hfg. induction s as [|c r IH]; [reflexivity |].
  cbn [string_forallb]. intros H. apply andb_true_iff in H as [Hc Hr].
  now rewrite (Hfg c Hc), (IH Hr).
Qed.

Lemma copied_not (c : ascii) :
  copied_char c = true ->
  (nat_of_ascii c =? 34)%nat = false
  /\ (nat_of_ascii c =? 38)%nat = false
  /\ (nat_of_ascii c =? 60)%nat = false.
Proof.
  unfold copied_char. intros H.
  apply andb_true_iff in H as [H H60]. apply andb_true_iff in H as [H H38].
  apply andb_true_iff in H as [_ H34].
  apply negb_true_iff in H34, H38, H60. auto.
Qed.

Lemma strip_app (pre s : string) : strip pre (pre ++ s) = Some s.
Proof.
  induction pre as [|a pre IH]; [reflexivity |].
  cbn [append strip]. now rewrite Ascii.eqb_refl.
Qed.

Lemma until_app (stop : nat) (a r : string) (d : ascii) :
  string_forallb (fun c => negb (nat_of_ascii c =? stop)%nat) a = true ->
  nat_of_ascii d = stop ->
  until stop (a ++ String d r) = Some (a, r).
Proof.
  intros Ha Hd. induction a as [|c a IH].
  - cbn [append until]. now rewrite Hd, Nat.eqb_refl.
  - cbn [string_forallb] in Ha. apply andb_true_iff in Ha as [Hc Ha].
    apply negb_true_iff in Hc.
    cbn [append until]. now rewrite Hc, (IH Ha).
Qed.

Lemma dom_read_plain (s : string) : plain s = true -> dom_read s = Some s.
Proof.
  unfold dom_read, plain. induction s as [|c r IH]; [reflexivity |].
  cbn [string_forallb dom_read_from]. intros H.
  apply andb_true_iff in H as [Hc Hr].
  destruct (copied_not c Hc) as [_ [H38 _]].
  now rewrite H38, Hc, (IH Hr).
Qed.

Lemma append_nil_r (a : string) : (a ++ "")%string = a.
Proof. induction a as [|c a IH]; cbn; [reflexivity | now rewrite IH]. Qed.

Lemma length_append (a b : string) :
  String.length (a ++ b) = (String.length a + String.length b)%nat.
Proof. induction a as [|c a IH]; cbn; [reflexivity | now rewrite IH]. Qed.

Lemma html_cons (c : crumb) (cs : list crumb) :
  breadcrumb_html (c :: cs) = (crumb_html c ++ breadcrumb_html cs)%string.
Proof.
  unfold breadcrumb_html, Js.join. destruct cs as [|d cs]; cbn [map String.concat].
  - now rewrite append_nil_r.
  - reflexivity.
Qed.

Lemma html_length (cs : list crumb) :
  (length cs <= String.length (breadcrumb_html cs))%nat.
Proof.
  induction cs as [|c cs IH]; [cbn; lia |].
  rewrite html_cons, length_append. cbn [length].
  assert (Hc : (1 <= String.length (crumb_html c))%nat)
    by (destruct c; cbn; lia).
  lia.
Qed.

(** The markup of a span with a path, laid out as the parser passes it. *)
Lemma crumb_html_path (a l tail : string) :
  (crumb_html (CrumbPath a l) ++ tail)%string =
    (span_open
       ++ (a ++ String (ascii_of_nat 34)
                  (">" ++ (l ++ String "<" ("/span>" ++ tail)))))%string.
Proof.
  unfold crumb_html, span_open, Js.dquote. cbn [append].
  do 16 f_equal. rewrite append_assoc. cbn [append].
  do 2 f_equal. rewrite append_assoc. reflexivity.
Qed.

Lemma parse_spans_S (fuel : nat) (html : string) :
  html <> "" ->
  parse_spans_n (S fuel) html =
    match strip sep_html html with
    | Some rest => parse_spans_n fuel rest
    | None =>
        match strip span_open html with
        | None => None
        | Some s1 =>
            match until 34 s1 with
            | None => None
            | Some (raw_path, s2) =>
                match strip ">" s2 with
                | None => None
                | Some s3 =>
                    match until 60 s3 with
                    | None => None
                    | Some (raw_label, s4) =>
                        match strip "/span>" s4 with
                        | None => None
                        | Some s5 =>
                            match dom_read raw_path, dom_read raw_label,
                                  parse_spans_n fuel s5 with
                            | Some target, Some label, Some more =>
                                Some ((target, label) :: more)
                            | _, _, _ => None
                            end
                        end
                    end
                end
            end
        end
    end.
Proof. destruct html; [congruence | reflexivity]. Qed.

Lemma parse_sep (fuel : nat) (tail : string) :
  parse_spans_n (S fuel) (crumb_html CrumbSep ++ tail) = parse_spans_n fuel tail.
Proof.
  change (crumb_html CrumbSep) with sep_html.
  rewrite parse_spans_S by discriminate.
  now rewrite strip_app.
Qed.

Lemma parse_path (fuel : nat) (a l tail : string) :
  plain a = true -> plain l = true ->
  parse_spans_n (S fuel) (crumb_html (CrumbPath a l) ++ tail) =
    match parse_spans_n fuel tail with
    | Some more => Some ((a, l) :: more)
    | None => None
    end.
Proof.
  intros Ha Hl. rewrite crumb_html_path.
  set (body := (a ++ String (ascii_of_nat 34) _)%string).
  assert (Hsep : strip sep_html (span_open ++ body) = None) by reflexivity.
  rewrite parse_spans_S by discriminate.
  rewrite Hsep, strip_app. subst body.
  rewrite (until_app 34 a _ (ascii_of_nat 34)); [| | reflexivity].
  2:{ apply (string_forallb_impl copied_char); [| exact Ha].
      intros c Hc. destruct (copied_not c Hc) as [H34 _]. now rewrite H34. }
  rewrite (strip_app ">").
  rewrite (until_app 60 l _ "<"%char); [| | reflexivity].
  2:{ apply (string_forallb_impl copied_char); [| exact Hl].
      intros c Hc. destruct (copied_not c Hc) as [_ [_ H60]]. now rewrite H60. }
  rewrite strip_app, (dom_read_plain a Ha), (dom_read_plain l Hl).
  reflexivity.
Qed.

Lemma parse_plain (cs : list crumb) :
  Forall plain_crumb cs ->
  forall fuel, (length cs <= fuel)%nat ->
    parse_spans_n fuel (breadcrumb_html cs) = Some (written_spans cs).
Proof.
  induction cs as [|c cs IH]; intros Hall fuel Hfuel.
  - destruct fuel; reflexivity.
  - inversion Hall as [|? ? Hc Hrest]; subst.
    destruct fuel as [|fuel]; [cbn in Hfuel; lia |].
    cbn [length] in Hfuel. rewrite html_cons.
    destruct c as [a l |].
    + destruct Hc as [Ha Hl].
      rewrite (parse_path fuel a l _ Ha Hl), (IH Hrest fuel) by lia.
      reflexivity.
    + rewrite parse_sep. apply (IH Hrest). lia.
Qed.

Lemma split_plain_parts (s : string) :
  plain s = true -> Forall (fun part => plain part = true) (Js.split "/" s).
Proof.
  unfold plain. induction s as [|c r IH]; [repeat constructor |].
  cbn [string_forallb Js.split]. intros H.
  apply andb_true_iff in H as [Hc Hr]. specialize (IH Hr).
  pose proof (split_nonempty r) as Hne.
  destruct (Ascii.eqb c "/").
  - constructor; [reflexivity | exact IH].
  - destruct (Js.split "/" r) as [|h t]; [congruence |].
    inversion IH as [|? ? Hh Ht]; subst.
    constructor; [| exact Ht]. cbn [string_forallb]. now rewrite Hc, Hh.
Qed.

Lemma crumbs_loop_plain (parts : list string) :
  Forall (fun part => plain part = true) parts ->
  forall acc, plain acc = true -> Forall plain_crumb (crumbs_loop parts acc).
Proof.
  induction parts as [|p rest IH]; intros Hparts acc Hacc; [constructor |].
  inversion Hparts as [|? ? Hp Hrest]; subst.
  cbn [crumbs_loop]. destruct (Js.falsy p); [now apply IH |].
  set (acc' := if Js.falsy acc then p else _).
  assert (Hacc' : plain acc' = true).
  { subst acc'. destruct (Js.falsy acc); [exact Hp |].
    unfold plain in *. now rewrite !string_forallb_app, Hacc, Hp. }
  constructor; [exact I |]. constructor; [now split |]. now apply IH.
Qed.

Lemma crumbs_of_plain (cwd : string) :
  plain cwd = true -> Forall plain_crumb (crumbs_of cwd).
Proof.
  intros Hc. unfold crumbs_of. constructor; [split; reflexivity |].
  apply crumbs_loop_plain; [| reflexivity].
  destruct (Js.falsy cwd); [constructor | now apply split_plain_parts].
Qed.

Lemma written_spans_paths (cs : list crumb) :
  map fst (written_spans cs) = written_paths cs
  /\ map snd (written_spans cs) = written_labels cs.
Proof.
  induction cs as [|[a l |] cs [IH1 IH2]]; [split; reflexivity | |];
    cbn; [now rewrite IH1, IH2 | now split].
Qed.

(** For a path of copied characters the browser reads back the spans as
    the loop wrote them. *)
Lemma shown_spans_plain (cwd : string) :
  plain cwd = true -> shown_spans cwd = Some (written_spans (crumbs_of cwd)).
Proof.
  intros Hc. unfold shown_spans, parse_spans.
  apply parse_plain; [now apply crumbs_of_plain | apply html_length].
Qed.

Lemma span_targets_plain (cwd : string) :
  plain cwd = true ->
  span_targets cwd =
    Some ("" :: map (prefix_path (segments cwd)) (seq 0 (length (segments cwd)))).
Proof.
  intros Hc. unfold span_targets. rewrite (shown_spans_plain cwd Hc).
  cbn [option_map].
  now rewrite (proj1 (written_spans_paths _)), written_paths_crumbs_of.
Qed.

(** C6, evaluated on the script.  For a/b/c the page holds four
    clickable spans and the third leads to a/b.  But the path goes into
    the markup unescaped, so for the cwd a&lt;b/c, whose first segment
    is the name a&lt;b, the browser reads the reference and the span of
    that segment leads to a<b, which is not the join of the segments up
    to it. *)
Theorem C6_breadcrumb_reads_unescaped_path :
  span_targets "a/b/c" = Some [""; "a"; "a/b"; "a/b/c"]
  /\ segments "a&lt;b/c" = ["a&lt;b"; "c"]
  /\ prefix_path (segments "a&lt;b/c") 0 = "a&lt;b"
  /\ span_targets "a&lt;b/c" = Some [""; "a<b"; "a<b/c"]
  /\ span_labels "a&lt;b/c" = Some ["runs"; "a<b"; "c"].
Proof. vm_compute. repeat (split; [reflexivity |]). reflexivity. Qed.

(** X27: for a cwd made of characters the browser copies (no control
    character, double quote, ampersand or opening angle bracket) the
    page holds one clickable span for the root, leading to the empty
    path, and then one per non-empty segment of the cwd split on the
    slash, in order, the span of segment [i] leading to the join of
    segments [0..i]. *)
Theorem X27_breadcrumb_prefix_paths (cwd : string)
  (Hplain : plain cwd = true) :
  exists targets,
    span_targets cwd = Some targets
    /\ targets =
         "" :: map (prefix_path (segments cwd)) (seq 0 (length (segments cwd)))
    /\ length targets = S (length (segments cwd)).
Proof.
  eexists. split; [now apply span_targets_plain |].
  split; [reflexivity |]. cbn [length]. now rewrite length_map, length_seq.
Qed.

Lemma X27_breadcrumb_prefix_paths_witness :
  exists targets,
    span_targets "runs 1/out.d/x" = Some targets
    /\ targets = [""; "runs 1"; "runs 1/out.d"; "runs 1/out.d/x"].
Proof.
  destruct (X27_breadcrumb_prefix_paths "runs 1/out.d/x" eq_refl)
    as [targets [Ht [He _]]].
  exists targets. split; [exact Ht | exact He].
Defined.

(** X17: for a cwd made of characters the browser copies, the clickable
    spans of the breadcrumb show runs and then the non-empty segments of
    the cwd, in order, one span per segment. *)
Theorem X17_breadcrumb_labels (cwd : string) (Hplain : plain cwd = true) :
  span_labels cwd = Some ("runs" :: segments cwd).
Proof.
  unfold span_labels. rewrite (shown_spans_plain cwd Hplain). cbn [option_map].
  rewrite (proj2 (written_spans_paths _)).
  unfold crumbs_of, segments. cbn [written_labels].
  destruct (Js.falsy cwd) eqn:Hc.
  - apply falsy_true in Hc. now subst cwd.
  - now rewrite (proj1 (labels_loop (Js.split "/" cwd) "")).
Qed.

Lemma X17_breadcrumb_labels_witness :
  span_labels "a//b" = Some ["runs"; "a"; "b"].
Proof. exact (X17_breadcrumb_labels "a//b" eq_refl). Defined.

Lemma last_prefix_path (segs : list string) :
  last ("" :: map (prefix_path segs) (seq 0 (length segs))) ""
    = Js.join "/" segs.
Proof.
  destruct (length segs) as [|n] eqn:Hn.
  - apply length_zero_iff_nil in Hn. now rewrite Hn.
  - rewrite seq_S, map_app, app_comm_cons. cbn [map]. rewrite last_last.
    unfold prefix_path. cbn [Nat.add]. rewrite <- Hn. now rewrite firstn_all.
Qed.

(** X15: for a cwd made of characters the browser copies, the last
    clickable span of the breadcrumb leads to the cwd with its empty
    segments removed; when the cwd is in canonical form, with no empty
    segment, that is the cwd itself. *)
Theorem X15_last_crumb_is_cwd (cwd : string) (Hplain : plain cwd = true) :
  exists targets,
    span_targets cwd = Some targets
    /\ last targets "" = Js.join "/" (segments cwd)
    /\ (canonical cwd -> last targets "" = cwd).
Proof.
  eexists. split; [now apply span_targets_plain |].
  rewrite last_prefix_path. split; [reflexivity |].
  intros Hc. rewrite Hc. apply join_split.
Qed.

Lemma X15_last_crumb_is_cwd_witness :
  exists targets,
    span_targets "a/b/c" = Some targets /\ last targets "" = "a/b/c".
Proof.
  destruct (X15_last_crumb_is_cwd "a/b/c" eq_refl) as [targets [Ht [_ Hl]]].
  exists targets. split; [exact Ht | exact (Hl eq_refl)].
Defined.



(** A text of white space beyond ASCII is treated as empty too, and
    white space of any width is cut from both ends of what is sent. *)
Example unicode_white_space_is_trimmed :
  Js.trim nbsp = ""
  /\ Js.trim (nbsp ++ " hi there" ++ wide_blank) = "hi there"
  /\ submit nbsp (startConversational boot)
       = set_inputValue nbsp (startConversational boot)
  /\ chat_inflight (submit (nbsp ++ "hi") (startConversational boot))
       = [ReqChat "/api/chat_convo" "hi" BranchConvo].
Proof. vm_compute. repeat (split; [reflexivity |]). reflexivity. Qed.
